(** * SuperTux level parser: a shallow embedding of
      [src/supertux/level_parser.cpp] and the properties of its loader and
      of its new-level allocator.

    The translation unit is embedded function by function.  The classes it
    only calls (the document reader, the sector parser, PhysFS, the level
    statistics) are collaborators: they are gathered in one record [Env]
    and every statement holds for all of them. *)

From Stdlib Require Import ZArith String Ascii List Bool Lia DecimalString.
From Stdlib Require Import DecimalPos DecimalZ.
Import ListNotations.

#[local] Set Warnings "-register-all".

Open Scope Z_scope.
Open Scope string_scope.

(** ** The C++ [int] and [std::to_string] *)

Module Int.

Definition min_signed : Z := -2147483648.
Definition max_signed : Z := 2147483647.

(** [num++] on an [int]: the next value, or nothing when [num] is the
    largest [int].  Signed overflow is undefined behaviour in C++: there
    is no value to give. *)
Definition incr (num : Z) : option Z :=
  if (num <? max_signed)%Z then Some (num + 1) else None.

End Int.

(** [std::to_string(int)] and [operator<<(int)]: decimal digits, with a
    leading minus sign for a negative value. *)
Definition to_string (z : Z) : string := NilZero.string_of_int (Z.to_int z).

(** The double-quote character, as it occurs inside a message. *)
Definition dquote : string := String (ascii_of_nat 34) EmptyString.

(** ** Exceptions *)

(** Every handler of the unit catches [std::exception] and reads [what()];
    the unit itself throws [std::runtime_error].  What the collaborators
    throw derives from [std::exception] as well. *)
Inductive exception : Type :=
| runtime_error (msg : string)
| std_exception (msg : string).

Definition what (e : exception) : string :=
  match e with
  | runtime_error msg => msg
  | std_exception msg => msg
  end.

(** The outcome of a call: a value, or an exception in flight. *)
Inductive Result (A : Type) : Type :=
| Returns (a : A)
| Throws (e : exception).

Arguments Returns {A} a.
Arguments Throws {A} e.

(** ** Statements: state and exceptions *)

(** A statement runs from a state and either returns or throws; the state
    changes it made before throwing stay. *)
Definition M (St A : Type) : Type := St -> Result A * St.

Definition ret {St A : Type} (a : A) : M St A := fun w => (Returns a, w).

Definition bind {St A B : Type} (m : M St A) (k : A -> M St B) : M St B :=
  fun w =>
    match m w with
    | (Returns a, w') => k a w'
    | (Throws e, w') => (Throws e, w')
    end.

(** [throw e;] *)
Definition throw {St A : Type} (e : exception) : M St A :=
  fun w => (Throws e, w).

(** [try { body } catch (std::exception& e) { handler }]: the handler
    starts from the state the body left. *)
Definition try_catch {St A : Type} (body : M St A)
    (handler : exception -> M St A) : M St A :=
  fun w =>
    match body w with
    | (Returns a, w') => (Returns a, w')
    | (Throws e, w') => handler e w'
    end.

(** The value or the exception of a collaborator's call. *)
Definition call {St A : Type} (r : Result A) : M St A := fun w => (r, w).

Declare Scope parser_scope.
Delimit Scope parser_scope with parser.
Notation "x <- m ;; k" := (bind m (fun x => k))
  (at level 61, m at next level, right associativity) : parser_scope.
Notation "m ;; k" := (bind m (fun _ => k))
  (at level 61, right associativity) : parser_scope.

Section Model.

(** Types owned by the collaborators. *)
Context {float Statistics SectorBody istream : Type}.
Context {ReaderDocument ReaderObject ReaderMapping : Type}.

(** ** Data model *)

(** Modelled from the spec: [Sector] (supertux/sector.hpp is not among the
    sources).  A sector is opaque to this unit but for its name, which
    [create] sets; the sector parser owns the rest. *)
Record Sector : Type := mkSector {
  sector_name : string;
  sector_body : SectorBody
}.

(** [Sector::set_name] *)
Definition set_name (name : string) (s : Sector) : Sector :=
  {| sector_name := name; sector_body := sector_body s |}.

(** The members of [Level] this unit reads and writes, under the names
    the unit uses (supertux/level.hpp is not among the sources). *)
Record Level : Type := mkLevel {
  m_filename : string;
  m_name : string;
  m_author : string;
  m_contact : string;
  m_license : string;
  m_target_time : float;
  m_tileset : string;
  m_sectors : list Sector;
  m_stats : Statistics
}.

Definition set_m_filename (v : string) (l : Level) : Level :=
  mkLevel v (m_name l) (m_author l) (m_contact l) (m_license l)
          (m_target_time l) (m_tileset l) (m_sectors l) (m_stats l).

Definition set_m_name (v : string) (l : Level) : Level :=
  mkLevel (m_filename l) v (m_author l) (m_contact l) (m_license l)
          (m_target_time l) (m_tileset l) (m_sectors l) (m_stats l).

Definition set_m_author (v : string) (l : Level) : Level :=
  mkLevel (m_filename l) (m_name l) v (m_contact l) (m_license l)
          (m_target_time l) (m_tileset l) (m_sectors l) (m_stats l).

Definition set_m_contact (v : string) (l : Level) : Level :=
  mkLevel (m_filename l) (m_name l) (m_author l) v (m_license l)
          (m_target_time l) (m_tileset l) (m_sectors l) (m_stats l).

Definition set_m_license (v : string) (l : Level) : Level :=
  mkLevel (m_filename l) (m_name l) (m_author l) (m_contact l) v
          (m_target_time l) (m_tileset l) (m_sectors l) (m_stats l).

Definition set_m_target_time (v : float) (l : Level) : Level :=
  mkLevel (m_filename l) (m_name l) (m_author l) (m_contact l) (m_license l)
          v (m_tileset l) (m_sectors l) (m_stats l).

Definition set_m_tileset (v : string) (l : Level) : Level :=
  mkLevel (m_filename l) (m_name l) (m_author l) (m_contact l) (m_license l)
          (m_target_time l) v (m_sectors l) (m_stats l).

Definition set_m_stats (v : Statistics) (l : Level) : Level :=
  mkLevel (m_filename l) (m_name l) (m_author l) (m_contact l) (m_license l)
          (m_target_time l) (m_tileset l) (m_sectors l) v.

(** [Level::add_sector]: the sector goes to the back of the vector. *)
Definition add_sector (s : Sector) (l : Level) : Level :=
  mkLevel (m_filename l) (m_name l) (m_author l) (m_contact l) (m_license l)
          (m_target_time l) (m_tileset l) (m_sectors l ++ [s]) (m_stats l).

(** ** Observable effects *)

(** What a call does besides changing the level, in the order it does it. *)
Inductive Event : Type :=
| log_info (msg : string)
| log_warning (msg : string)
| register_translation_directory (path : string)
| open_file (path : string)
| open_stream (context : string)
| store_m_filename (value : string)
| call_from_reader (node : ReaderMapping)
| call_from_reader_old_format (root : ReaderMapping)
| call_from_nothing
| call_stats_init.

(** The level a parser refers to ([LevelParser::m_level]) and the events
    so far, oldest first. *)
Record World : Type := mkWorld {
  m_level : Level;
  events : list Event
}.

(** ** Collaborators *)

(** Modelled from the spec: the document reader, the sector parser, PhysFS
    and the statistics, whose code is not among the sources, taken as
    parameters.  The signatures are those of the calls in this unit.  A
    document is parsed when it is opened, so opening it can throw, as the
    three entry points of the sector parser can; on an opened document the
    root, its tag, its mapping, the typed [get] of a field (a value or
    none) and the ordered iteration over the entries are total. *)
Record Env : Type := mkEnv {
  (* physfs *)
  PHYSFS_exists : string -> bool;
  (* util/reader_document.hpp *)
  ReaderDocument_from_file : string -> Result ReaderDocument;
  ReaderDocument_from_stream : istream -> string -> Result ReaderDocument;
  get_root : ReaderDocument -> ReaderObject;
  get_filename : ReaderDocument -> string;
  (* util/reader_object.hpp *)
  get_name : ReaderObject -> string;
  get_mapping : ReaderObject -> ReaderMapping;
  (* util/reader_mapping.hpp: [get(key, out)] leaves [out] alone and
     returns false when it finds no value *)
  get_string : ReaderMapping -> string -> option string;
  get_int : ReaderMapping -> string -> option Z;
  get_float : ReaderMapping -> string -> option float;
  (* util/reader_iterator.hpp: the entries [next()] walks through, each
     with its [get_key()] and its [as_mapping()] *)
  get_iter : ReaderMapping -> list (string * ReaderMapping);
  (* supertux/sector_parser.hpp *)
  SectorParser_from_reader : Level -> ReaderMapping -> bool -> Result Sector;
  SectorParser_from_reader_old_format :
    Level -> ReaderMapping -> bool -> Result Sector;
  SectorParser_from_nothing : Level -> Result Sector;
  (* supertux/statistics.hpp: [m_stats.init(level)] *)
  Statistics_init : Level -> Statistics;
  (* supertux/level.cpp: the members [Level::Level()] initialises to
     something this unit does not fix *)
  default_name : string;
  default_author : string;
  default_contact : string;
  default_license : string;
  default_target_time : float;
  default_tileset : string;
  default_stats : Statistics
}.

(** Modelled from the spec: [Level::Level()] (supertux/level.cpp is not
    among the sources).  A new level has an empty file name and no sector;
    its other members start at defaults this unit does not depend on. *)
Definition Level_new (env : Env) : Level :=
  {| m_filename := "";
     m_name := default_name env;
     m_author := default_author env;
     m_contact := default_contact env;
     m_license := default_license env;
     m_target_time := default_target_time env;
     m_tileset := default_tileset env;
     m_sectors := [];
     m_stats := default_stats env |}.

(** ** Primitive statements *)

Definition emit (e : Event) : M World unit :=
  fun w => (Returns tt, mkWorld (m_level w) (events w ++ [e])).

Definition update (f : Level -> Level) : M World unit :=
  fun w => (Returns tt, mkWorld (f (m_level w)) (events w)).

Definition read {A : Type} (f : Level -> A) : M World A :=
  fun w => (Returns (f (m_level w)), w).

(** [m_level.m_filename = value;] *)
Definition assign_m_filename (value : string) : M World unit :=
  (emit (store_m_filename value) ;; update (set_m_filename value))%parser.

(** [mapping.get(key, m_level.member);] *)
Definition get_into {A : Type} (found : option A)
    (set_member : A -> Level -> Level) : M World unit :=
  match found with
  | Some v => update (set_member v)
  | None => ret tt
  end.

(** [T out = init; mapping.get(key, out);] *)
Definition get_or {A : Type} (found : option A) (init : A) : A :=
  match found with
  | Some v => v
  | None => init
  end.

(** ** The translation unit *)

Variable env : Env.

Local Open Scope parser_scope.

(** [LevelParser::get_level_name] *)
Definition get_level_name (filename : string) : M World string :=
  try_catch
    (emit (register_translation_directory filename) ;;
     emit (open_file filename) ;;
     doc <- call (ReaderDocument_from_file env filename) ;;
     let root := get_root env doc in
     if negb (get_name env root =? "supertux-level")%string then
       ret ""
     else
       let mapping := get_mapping env root in
       let name := get_or (get_string env mapping "name") "" in
       ret name)
    (fun e =>
       emit (log_warning ("Problem getting name of '" ++ filename ++ "': "
                          ++ what e)) ;;
       ret "").

(** [LevelParser::load_old_format] *)
Definition load_old_format (m_editable : bool) (reader : ReaderMapping)
  : M World unit :=
  get_into (get_string env reader "name") set_m_name ;;
  get_into (get_string env reader "author") set_m_author ;;
  emit (call_from_reader_old_format reader) ;;
  lvl <- read (fun l => l) ;;
  sector <- call (SectorParser_from_reader_old_format env lvl reader
                    m_editable) ;;
  update (add_sector sector).

(** The loop [while (iter.next()) { ... }] of [load], over the entries
    the iterator has still to visit. *)
Fixpoint load_sectors (m_editable : bool)
    (iter : list (string * ReaderMapping)) : M World unit :=
  match iter with
  | [] => ret tt
  | (key, node) :: iter' =>
      (if (key =? "sector")%string then
         emit (call_from_reader node) ;;
         lvl <- read (fun l => l) ;;
         sector <- call (SectorParser_from_reader env lvl node m_editable) ;;
         update (add_sector sector)
       else ret tt) ;;
      load_sectors m_editable iter'
  end.

(** [LevelParser::load(const ReaderDocument&)] *)
Definition load_document (m_editable : bool) (doc : ReaderDocument)
  : M World unit :=
  let root := get_root env doc in
  if negb (get_name env root =? "supertux-level")%string then
    throw (runtime_error "file is not a supertux-level file.")
  else
    let level := get_mapping env root in
    let version := get_or (get_int env level "version") 1 in
    (if (version =? 1)%Z then
       emit (log_info ("[" ++ get_filename env doc
                       ++ "] level uses old format: version 1")) ;;
       load_old_format m_editable level
     else if (version =? 2)%Z then
       get_into (get_string env level "tileset") set_m_tileset ;;
       get_into (get_string env level "name") set_m_name ;;
       get_into (get_string env level "author") set_m_author ;;
       get_into (get_string env level "contact") set_m_contact ;;
       get_into (get_string env level "license") set_m_license ;;
       get_into (get_float env level "target-time") set_m_target_time ;;
       load_sectors m_editable (get_iter env level) ;;
       license <- read m_license ;;
       if (license =? "")%string then
         author <- read m_author ;;
         name <- read m_name ;;
         emit (log_warning
                 ("[" ++ get_filename env doc ++ "] The level author "
                  ++ dquote ++ author ++ dquote
                  ++ " did not specify a license for this level "
                  ++ dquote ++ name ++ dquote
                  ++ ". You might not be allowed to share it."))
       else ret tt
     else
       emit (log_warning ("[" ++ get_filename env doc
                          ++ "] level format version " ++ to_string version
                          ++ " is not supported"))) ;;
    emit call_stats_init ;;
    lvl <- read (fun l => l) ;;
    update (set_m_stats (Statistics_init env lvl)).

(** [LevelParser::load(std::istream&, const std::string&)] *)
Definition load_stream (m_editable : bool) (stream : istream)
    (context : string) : M World unit :=
  emit (open_stream context) ;;
  doc <- call (ReaderDocument_from_stream env stream context) ;;
  load_document m_editable doc.

(** [LevelParser::load(const std::string&)] *)
Definition load_file (m_editable : bool) (filepath : string)
  : M World unit :=
  assign_m_filename filepath ;;
  emit (register_translation_directory filepath) ;;
  try_catch
    (emit (open_file filepath) ;;
     doc <- call (ReaderDocument_from_file env filepath) ;;
     load_document m_editable doc)
    (fun e =>
       let msg := "Problem when reading level '" ++ filepath ++ "': "
                  ++ what e in
       throw (runtime_error msg)).

(** [LevelParser::create] *)
Definition create (filepath levelname : string) (worldmap : bool)
  : M World unit :=
  assign_m_filename filepath ;;
  update (set_m_name levelname) ;;
  update (set_m_license "CC-BY-SA 4.0 International") ;;
  update (set_m_tileset (if worldmap then "images/worldmap.strf"
                         else "images/tiles.strf")) ;;
  emit call_from_nothing ;;
  lvl <- read (fun l => l) ;;
  sector <- call (SectorParser_from_nothing env lvl) ;;
  update (add_sector (set_name "main" sector)).

(** [auto level = std::make_unique<Level>();] and the parser built on
    that fresh level. *)
Definition new_parser : M World unit := update (fun _ => Level_new env).

(** [LevelParser::from_stream] *)
Definition from_stream (stream : istream) (context : string)
    (editable : bool) : M World Level :=
  new_parser ;;
  load_stream editable stream context ;;
  read (fun l => l).

(** [LevelParser::from_file] *)
Definition from_file (filename : string) (editable : bool) : M World Level :=
  new_parser ;;
  load_file editable filename ;;
  read (fun l => l).

(** How a run of the probing loop stands after some iterations: it left
    the loop with the counter at [num]; or it reached [num++] with the
    counter at the largest [int], where the behaviour of the program is
    undefined; or it is still in the loop. *)
Inductive Probe : Type :=
| Found (num : Z)
| Overflow
| Unfinished.

(** The loop [do { num++; level_file = path(num); }
    while (PHYSFS_exists(level_file.c_str()));] of both allocators.  It
    need not end: [fuel] bounds the iterations, and [Unfinished] says they
    did not suffice. *)
Fixpoint do_while_exists (path : Z -> string) (fuel : nat) (num : Z)
  : Probe :=
  match fuel with
  | O => Unfinished
  | S fuel' =>
      match Int.incr num with
      | None => Overflow
      | Some num =>
          let level_file := path num in
          if PHYSFS_exists env level_file then do_while_exists path fuel' num
          else Found num
      end
  end.

(** The files [from_nothing] probes. *)
Definition level_path (basedir : string) (num : Z) : string :=
  basedir ++ "/level" ++ to_string num ++ ".stl".

(** The files the loop of [from_nothing_worldmap] probes. *)
Definition worldmap_path (basedir : string) (num : Z) : string :=
  basedir ++ "/worldmap" ++ to_string num ++ ".stwm".

(** [LevelParser::from_nothing]; [None] when the loop has given no
    counter: it has not ended, or the counter overflowed. *)
Definition from_nothing (fuel : nat) (basedir : string)
  : option (M World Level) :=
  match do_while_exists (level_path basedir) fuel 0 with
  | Overflow | Unfinished => None
  | Found num =>
      let level_name := "Level " ++ to_string num in
      let level_file := "level" ++ to_string num ++ ".stl" in
      Some (new_parser ;;
            create level_file level_name false ;;
            read (fun l => l))
  end.

(** [LevelParser::from_nothing_worldmap]; [None] when the loop has given
    no counter: it has not ended, or the counter overflowed. *)
Definition from_nothing_worldmap (fuel : nat) (basedir name : string)
  : option (M World Level) :=
  let level_file := basedir ++ "/worldmap.stwm" in
  if PHYSFS_exists env level_file then
    match do_while_exists (worldmap_path basedir) fuel 0 with
    | Overflow | Unfinished => None
    | Found num =>
        let level_file := "worldmap" ++ to_string num ++ ".stwm" in
        Some (new_parser ;;
              create level_file name true ;;
              read (fun l => l))
    end
  else
    let level_file := "worldmap.stwm" in
    Some (new_parser ;;
          create level_file name true ;;
          read (fun l => l)).

(** ** Vocabulary of the statements *)

(** The level after [mapping.get(key, level.member)]. *)
Definition with_member {A : Type} (found : option A)
    (set_member : A -> Level -> Level) (l : Level) : Level :=
  match found with
  | Some v => set_member v l
  | None => l
  end.

(** The child nodes of a mapping whose key is [sector], in the order of
    the document. *)
Definition sector_nodes (iter : list (string * ReaderMapping))
  : list ReaderMapping :=
  map snd (filter (fun entry => (fst entry =? "sector")%string) iter).

(** The values stored into [m_filename], oldest first. *)
Definition stores (es : list Event) : list string :=
  flat_map (fun e => match e with
                     | store_m_filename value => [value]
                     | _ => []
                     end) es.

(** [w'] comes after [w] without a store into [m_filename]: the member
    is what it was, and no event since is such a store. *)
Definition quiet (w w' : World) : Prop :=
  m_filename (m_level w') = m_filename (m_level w) /\
  exists es, events w' = (events w ++ es)%list /\ stores es = [].

(** A statement that never stores into [m_filename], whether it returns
    or throws. *)
Definition keeps_filename {A : Type} (m : M World A) : Prop :=
  forall w outcome w', m w = (outcome, w') -> quiet w w'.

(** The message [load] wraps an exception in. *)
Definition problem_when_reading (filepath : string) (e : exception)
  : exception :=
  runtime_error ("Problem when reading level '" ++ filepath ++ "': "
                 ++ what e).

(** The sector parser calls among some events. *)
Definition is_sector_call (e : Event) : bool :=
  match e with
  | call_from_reader _ | call_from_reader_old_format _
  | call_from_nothing => true
  | _ => false
  end.

(** What an allocator that settled on [filename] and [name] does: it
    returns the level the parser holds, with that file name, that name
    and the one sector [main]; it throws only what
    [SectorParser::from_nothing] threw. *)
Definition yields_new_level (run : M World Level) (filename name : string)
  : Prop :=
  forall w, exists outcome w',
    run w = (outcome, w') /\
    (forall lvl, outcome = Returns lvl ->
       lvl = m_level w' /\
       m_filename lvl = filename /\
       m_name lvl = name /\
       exists s, m_sectors lvl = [s] /\ sector_name s = "main") /\
    (forall e, outcome = Throws e ->
       exists seed, SectorParser_from_nothing env seed = Throws e).

(** The level after the six reads of the current format, in the order
    [load] makes them. *)
Definition read_metadata (root : ReaderMapping) (l : Level) : Level :=
  with_member (get_float env root "target-time") set_m_target_time
    (with_member (get_string env root "license") set_m_license
       (with_member (get_string env root "contact") set_m_contact
          (with_member (get_string env root "author") set_m_author
             (with_member (get_string env root "name") set_m_name
                (with_member (get_string env root "tileset") set_m_tileset
                   l))))).

(** The level after [add_sector] on each of [ss] in turn. *)
Definition add_sectors (ss : list Sector) (l : Level) : Level :=
  fold_left (fun l' s => add_sector s l') ss l.

(** The notice [load] logs on a version 1 document. *)
Definition old_format_notice (filename : string) : Event :=
  log_info ("[" ++ filename ++ "] level uses old format: version 1").

(** The warning [load] logs on a current-format level without license. *)
Definition license_warning (filename author name : string) : Event :=
  log_warning ("[" ++ filename ++ "] The level author "
               ++ dquote ++ author ++ dquote
               ++ " did not specify a license for this level "
               ++ dquote ++ name ++ dquote
               ++ ". You might not be allowed to share it.").

(** The warning [load] logs on a version it does not know. *)
Definition unsupported_warning (filename : string) (version : Z) : Event :=
  log_warning ("[" ++ filename ++ "] level format version "
               ++ to_string version ++ " is not supported").

(** What [load] throws on a document with another root tag. *)
Definition not_a_level : exception :=
  runtime_error "file is not a supertux-level file.".

(** An exception one of the two reading entry points of the sector parser
    throws on some level and node. *)
Definition sector_parser_throws (editable : bool) (e : exception) : Prop :=
  exists lvl node,
    SectorParser_from_reader env lvl node editable = Throws e \/
    SectorParser_from_reader_old_format env lvl node editable = Throws e.

(** What [create] leaves of a new level besides its file name and name:
    the license and the tileset it sets, the members and the statistics it
    does not touch, and the two things it does. *)
Definition seeded_by_create (tileset : string) (lvl : Level) (w w' : World)
  : Prop :=
  m_license lvl = "CC-BY-SA 4.0 International" /\
  m_tileset lvl = tileset /\
  m_author lvl = default_author env /\
  m_contact lvl = default_contact env /\
  m_target_time lvl = default_target_time env /\
  m_stats lvl = default_stats env /\
  events w' = (events w ++ [store_m_filename (m_filename lvl);
                            call_from_nothing])%list.

End Model.

(** ** A small concrete installation

    A reader over trees held in memory, a table of files, and sector
    builders that keep the node they were given.  The examples below run
    the embedded functions on it. *)

Module Sample.

Inductive Value : Type :=
| VInt (z : Z)
| VString (s : string)
| VList (entries : list (string * Value)).

Definition Mapping : Type := list (string * Value).

Record Object : Type := mkObject {
  tag : string;
  body : Mapping
}.

Record Document : Type := mkDocument {
  origin : string;
  root : Object
}.

Fixpoint lookup (m : Mapping) (key : string) : option Value :=
  match m with
  | [] => None
  | (k, v) :: m' => if (k =? key)%string then Some v else lookup m' key
  end.

Definition lookup_string (m : Mapping) (key : string) : option string :=
  match lookup m key with
  | Some (VString s) => Some s
  | _ => None
  end.

Definition lookup_int (m : Mapping) (key : string) : option Z :=
  match lookup m key with
  | Some (VInt z) => Some z
  | _ => None
  end.

Definition children (m : Mapping) : list (string * Mapping) :=
  map (fun kv => (fst kv, match snd kv with
                          | VList entries => entries
                          | _ => []
                          end)) m.

Definition SampleSector : Type := @Sector Mapping.
Definition SampleLevel : Type := @Level Z nat Mapping.
Definition SampleWorld : Type := @World Z nat Mapping Mapping.
Definition SampleEnv : Type :=
  @Env Z nat Mapping (option Object) Document Object Mapping.

(** A sector node marked [broken] makes the sector parser throw. *)
Definition build (node : Mapping) : Result SampleSector :=
  match lookup node "broken" with
  | Some _ => Throws (runtime_error "bad sector")
  | None =>
      Returns (mkSector (get_or (lookup_string node "name") "") node)
  end.

(** [files] are the documents that can be opened, [existing] the paths
    PhysFS reports as present; a stream holds a parsed object or
    garbage. *)
Definition env (files : list (string * Document)) (existing : list string)
  : SampleEnv :=
  {| PHYSFS_exists := fun path => existsb (String.eqb path) existing;
     ReaderDocument_from_file := fun path =>
       match find (fun f => (fst f =? path)%string) files with
       | Some f => Returns (snd f)
       | None => Throws (runtime_error "Couldn't open file")
       end;
     ReaderDocument_from_stream := fun stream context =>
       match stream with
       | Some object => Returns (mkDocument context object)
       | None => Throws (runtime_error "Parse error")
       end;
     get_root := root;
     get_filename := origin;
     get_name := tag;
     get_mapping := body;
     get_string := lookup_string;
     get_int := lookup_int;
     get_float := lookup_int;
     get_iter := children;
     SectorParser_from_reader := fun _ node _ => build node;
     SectorParser_from_reader_old_format := fun _ node _ => build node;
     SectorParser_from_nothing := fun _ => Returns (mkSector "" []);
     Statistics_init := fun l => length (m_sectors l);
     default_name := "noname";
     default_author := "SuperTux Player";
     default_contact := "";
     default_license := "";
     default_target_time := 0;
     default_tileset := "images/tiles.strf";
     default_stats := 0%nat |}.

Definition sector (name : string) : string * Value :=
  ("sector", VList [("name", VString name)]).

(** A current-format level with three sectors among other entries. *)
Definition three_sectors : Object :=
  mkObject "supertux-level"
    [("version", VInt 2); ("name", VString "Three");
     ("license", VString "CC0"); sector "A"; ("music", VString "x.ogg");
     sector "B"; sector "C"].

(** A legacy level: no [version] entry. *)
Definition legacy : Object :=
  mkObject "supertux-level"
    [("name", VString "Foo"); ("author", VString "Bar");
     ("width", VInt 40)].

Definition future : Object :=
  mkObject "supertux-level" [("version", VInt 99); ("name", VString "N")].

Definition foreign : Object :=
  mkObject "foo" [("version", VInt 2); ("name", VString "X")].

Definition files : list (string * Document) :=
  [("levels/three.stl", mkDocument "levels/three.stl" three_sectors);
   ("levels/legacy.stl", mkDocument "levels/legacy.stl" legacy);
   ("levels/future.stl", mkDocument "levels/future.stl" future);
   ("levels/foo.stl", mkDocument "levels/foo.stl" foreign)].

Definition existing : list string :=
  ["levels/three.stl"; "levels/legacy.stl"; "levels/future.stl";
   "levels/foo.stl"; "levels/level1.stl"; "levels/level2.stl";
   "levels/worldmap.stwm"].

Definition installation : SampleEnv := env files existing.

(** The world before a call: some level and no event yet. *)
Definition start : SampleWorld := mkWorld (Level_new installation) [].

(** A current-format level without license, by A and named N. *)
Definition unlicensed : Object :=
  mkObject "supertux-level"
    [("version", VInt 2); ("name", VString "N"); ("author", VString "A");
     sector "main"].

(** A current-format level without any sector. *)
Definition sectorless : Object :=
  mkObject "supertux-level" [("version", VInt 2); ("license", VString "CC0")].

(** A current-format level whose second sector the sector parser rejects. *)
Definition broken_sector : Object :=
  mkObject "supertux-level"
    [("version", VInt 2); sector "A"; ("sector", VList [("broken", VInt 1)])].

(** A legacy level that has entries only the current format reads. *)
Definition legacy_with_extras : Object :=
  mkObject "supertux-level"
    [("name", VString "Foo"); ("tileset", VString "other.strf");
     ("license", VString "GPL")].

(** The installation with a storage in which every path names a file. *)
Definition crowded : SampleEnv :=
  {| PHYSFS_exists := fun _ => true;
     ReaderDocument_from_file := ReaderDocument_from_file installation;
     ReaderDocument_from_stream := ReaderDocument_from_stream installation;
     get_root := get_root installation;
     get_filename := get_filename installation;
     get_name := get_name installation;
     get_mapping := get_mapping installation;
     get_string := get_string installation;
     get_int := get_int installation;
     get_float := get_float installation;
     get_iter := get_iter installation;
     SectorParser_from_reader := SectorParser_from_reader installation;
     SectorParser_from_reader_old_format :=
       SectorParser_from_reader_old_format installation;
     SectorParser_from_nothing := SectorParser_from_nothing installation;
     Statistics_init := Statistics_init installation;
     default_name := default_name installation;
     default_author := default_author installation;
     default_contact := default_contact installation;
     default_license := default_license installation;
     default_target_time := default_target_time installation;
     default_tileset := default_tileset installation;
     default_stats := default_stats installation |}.

End Sample.

(** * Properties *)

(** ** The 32-bit counter *)

Lemma Int_incr_no_overflow (num : Z) :
  Int.min_signed <= num < Int.max_signed -> Int.incr num = Some (num + 1).
Proof.
  intros H. unfold Int.incr.
  destruct (Z.ltb_spec num Int.max_signed); [ reflexivity | lia ].
Qed.

Lemma Int_incr_overflow : Int.incr Int.max_signed = None.
Proof. reflexivity. Qed.

(** The counter only goes up by one, and never past the largest [int]. *)
Lemma Int_incr_some (num next : Z) :
  Int.incr num = Some next -> next = num + 1 /\ next <= Int.max_signed.
Proof.
  unfold Int.incr. destruct (Z.ltb_spec num Int.max_signed);
    [ | discriminate ].
  intros [= <-]. lia.
Qed.

(** A predicate that fails somewhere in [1 .. bound] has a least failure. *)
Lemma least_failure (f : Z -> bool) (bound : Z) :
  (exists n, 1 <= n <= bound /\ f n = false) ->
  exists N, 1 <= N <= bound /\ f N = false /\
            forall k, 1 <= k < N -> f k = true.
Proof.
  intros (n & Hn & Hf).
  assert (Hscan : forall b, 0 <= b ->
            (forall k, 1 <= k <= b -> f k = true) \/
            (exists N, 1 <= N <= b /\ f N = false /\
                       forall k, 1 <= k < N -> f k = true)).
  { intros b Hb. pattern b. apply natlike_ind; [ | | exact Hb ].
    - left. intros k Hk. lia.
    - intros x Hx [Hall | (N & HN & HfN & Hleast)].
      + destruct (f (Z.succ x)) eqn:Hsx.
        * left. intros k Hk.
          destruct (Z.eq_dec k (Z.succ x)) as [-> | Hne]; [ exact Hsx | ].
          apply Hall. lia.
        * right. exists (Z.succ x). repeat split; try lia; [ exact Hsx | ].
          intros k Hk. apply Hall. lia.
      + right. exists N. repeat split; try lia; assumption. }
  destruct (Hscan n ltac:(lia)) as [Hall | (N & HN & HfN & Hleast)].
  - rewrite Hall in Hf by lia. discriminate.
  - exists N. repeat split; try lia; assumption.
Qed.

Section Properties.

Context {float Statistics SectorBody istream : Type}.
Context {ReaderDocument ReaderObject ReaderMapping : Type}.

Variable env :
  @Env float Statistics SectorBody istream
       ReaderDocument ReaderObject ReaderMapping.

#[local] Abbreviation Level := (@Level float Statistics SectorBody).
#[local] Abbreviation World :=
  (@World float Statistics SectorBody ReaderMapping).
#[local] Abbreviation Event := (@Event ReaderMapping).
#[local] Abbreviation keeps_filename :=
  (keeps_filename (float := float) (Statistics := Statistics)
                  (SectorBody := SectorBody) (ReaderMapping := ReaderMapping)).

(** ** The probing loop *)

(** From a counter below the first free suffix, the loop stops at that
    suffix once the fuel covers the distance. *)
Lemma do_while_exists_reaches (path : Z -> string) (N : Z) :
  N <= Int.max_signed ->
  PHYSFS_exists env (path N) = false ->
  forall (fuel : nat) (num : Z),
    0 <= num < N ->
    (forall k, num < k < N -> PHYSFS_exists env (path k) = true) ->
    (Z.to_nat (N - num) <= fuel)%nat ->
    do_while_exists env path fuel num = Found N.
Proof.
  intros Hmax Hfree fuel.
  induction fuel as [ | fuel IH ]; intros num Hnum Hbelow Hfuel.
  - lia.
  - cbn [do_while_exists].
    rewrite Int_incr_no_overflow
      by (unfold Int.min_signed, Int.max_signed in *; lia).
    destruct (Z.eq_dec (num + 1) N) as [ -> | Hne ].
    + rewrite Hfree. reflexivity.
    + rewrite Hbelow by lia. apply IH; [ lia | | lia ].
      intros k Hk. apply Hbelow. lia.
Qed.

Lemma do_while_exists_first_free (path : Z -> string) (N : Z) :
  1 <= N <= Int.max_signed ->
  PHYSFS_exists env (path N) = false ->
  (forall k, 1 <= k < N -> PHYSFS_exists env (path k) = true) ->
  forall fuel : nat,
    (Z.to_nat N <= fuel)%nat ->
    do_while_exists env path fuel 0 = Found N.
Proof.
  intros HN Hfree Hbelow fuel Hfuel.
  apply do_while_exists_reaches; try assumption; try lia.
  intros k Hk. apply Hbelow. lia.
Qed.

(** Whenever the loop has ended, the counter went up from where it
    started to the first suffix that names no file, within the [int]s. *)
Lemma do_while_exists_found (path : Z -> string) (fuel : nat) :
  forall num N,
    do_while_exists env path fuel num = Found N ->
    num < N <= Int.max_signed /\
    PHYSFS_exists env (path N) = false /\
    forall k, num < k < N -> PHYSFS_exists env (path k) = true.
Proof.
  induction fuel as [ | fuel IH ]; intros num N; [ discriminate | ].
  cbn [do_while_exists].
  destruct (Int.incr num) as [ next | ] eqn:Hincr; [ | discriminate ].
  apply Int_incr_some in Hincr as [ -> Hmax ].
  destruct (PHYSFS_exists env (path (num + 1))) eqn:Hexists.
  - intros Hrest. apply IH in Hrest as (HN & Hfree & Hbelow).
    repeat split; try lia; try assumption.
    intros k Hk. destruct (Z.eq_dec k (num + 1)) as [ -> | Hne ];
      [ exact Hexists | apply Hbelow; lia ].
  - intros [= <-]. repeat split; try lia; try assumption.
Qed.

(** When every suffix from 1 to the largest [int] names a file, the loop
    is still running after as many iterations as there are suffixes, and
    the next iteration increments the largest [int]. *)
Lemma do_while_exists_exhausts (path : Z -> string) :
  (forall n, 1 <= n <= Int.max_signed -> PHYSFS_exists env (path n) = true) ->
  forall (fuel : nat) (num : Z),
    0 <= num <= Int.max_signed ->
    do_while_exists env path fuel num =
    if (fuel <=? Z.to_nat (Int.max_signed - num))%nat then Unfinished
    else Overflow.
Proof.
  intros Hall fuel.
  induction fuel as [ | fuel IH ]; intros num Hnum; [ reflexivity | ].
  cbn [do_while_exists].
  destruct (Z.eq_dec num Int.max_signed) as [ -> | Hbelow ].
  - rewrite Int_incr_overflow, Z.sub_diag. reflexivity.
  - rewrite Int_incr_no_overflow
      by (unfold Int.min_signed, Int.max_signed in *; lia).
    rewrite Hall, IH by lia.
    destruct (Nat.leb_spec fuel (Z.to_nat (Int.max_signed - (num + 1)))),
      (Nat.leb_spec (S fuel) (Z.to_nat (Int.max_signed - num)));
      try reflexivity; lia.
Qed.

(** ** The allocators *)

(** [create] on a fresh parser, as both allocators end. *)
Lemma create_yields_new_level (filepath levelname : string)
    (worldmap : bool) :
  yields_new_level env
    (new_parser env ;; create env filepath levelname worldmap ;;
     read (fun l => l))%parser
    filepath levelname.
Proof.
  intros w.
  unfold new_parser, create, assign_m_filename, bind, update, emit, read,
    call.
  cbn [m_level events].
  match goal with
  | |- context [SectorParser_from_nothing env ?seed] =>
      destruct (SectorParser_from_nothing env seed) as [ s | e ] eqn:Hbuild
  end.
  - eexists _, _. split; [ reflexivity | ]. split.
    + intros lvl [= <-]. cbn. repeat split.
      exists (set_name "main" s). split; reflexivity.
    + intros e' [=].
  - eexists _, _. split; [ reflexivity | ]. split.
    + intros lvl [=].
    + intros e' [= <-]. eexists. exact Hbuild.
Qed.

(** C6.  When some suffix the counter can reach names no file,
    [from_nothing] settles on the least suffix [N] for which
    [basedir/level<N>.stl] does not exist: it probes that full path, and
    the level it returns has the file name [level<N>.stl] without the
    directory and the name [Level <N>]. *)
Theorem from_nothing_first_free_level (basedir : string) :
  (exists n, 1 <= n <= Int.max_signed /\
     PHYSFS_exists env (basedir ++ "/level" ++ to_string n ++ ".stl")
     = false) ->
  exists N, 1 <= N <= Int.max_signed /\
    PHYSFS_exists env (basedir ++ "/level" ++ to_string N ++ ".stl")
    = false /\
    (forall k, 1 <= k < N ->
       PHYSFS_exists env (basedir ++ "/level" ++ to_string k ++ ".stl")
       = true) /\
    forall fuel : nat, (Z.to_nat N <= fuel)%nat ->
      exists run, from_nothing env fuel basedir = Some run /\
        yields_new_level env run
          ("level" ++ to_string N ++ ".stl") ("Level " ++ to_string N).
Proof.
  intros Hfree.
  destruct (least_failure
              (fun n => PHYSFS_exists env (level_path basedir n))
              Int.max_signed Hfree) as (N & HN & HfN & Hleast).
  exists N. repeat split; try lia; try assumption.
  intros fuel Hfuel. unfold from_nothing.
  rewrite (do_while_exists_first_free (level_path basedir) N HN HfN
             Hleast fuel Hfuel).
  eexists. split; [ reflexivity | ]. apply create_yields_new_level.
Qed.

(** C7.  [from_nothing_worldmap] takes [worldmap.stwm] when
    [basedir/worldmap.stwm] does not exist; when it exists, it takes
    [worldmap<N>.stwm], without the directory, for the least [N >= 1]
    for which [basedir/worldmap<N>.stwm] does not exist.  Either way the
    level has the caller's name and the one sector [main]. *)
Theorem from_nothing_worldmap_filename (basedir name : string) :
  (PHYSFS_exists env (basedir ++ "/worldmap.stwm") = false ->
   forall fuel : nat,
     exists run, from_nothing_worldmap env fuel basedir name = Some run /\
       yields_new_level env run "worldmap.stwm" name) /\
  (PHYSFS_exists env (basedir ++ "/worldmap.stwm") = true ->
   (exists n, 1 <= n <= Int.max_signed /\
      PHYSFS_exists env (basedir ++ "/worldmap" ++ to_string n ++ ".stwm")
      = false) ->
   exists N, 1 <= N <= Int.max_signed /\
     PHYSFS_exists env (basedir ++ "/worldmap" ++ to_string N ++ ".stwm")
     = false /\
     (forall k, 1 <= k < N ->
        PHYSFS_exists env (basedir ++ "/worldmap" ++ to_string k ++ ".stwm")
        = true) /\
     forall fuel : nat, (Z.to_nat N <= fuel)%nat ->
       exists run, from_nothing_worldmap env fuel basedir name = Some run /\
         yields_new_level env run
           ("worldmap" ++ to_string N ++ ".stwm") name).
Proof.
  split.
  - intros Habsent fuel. unfold from_nothing_worldmap. rewrite Habsent.
    eexists. split; [ reflexivity | ]. apply create_yields_new_level.
  - intros Hpresent Hfree.
    destruct (least_failure
                (fun n => PHYSFS_exists env (worldmap_path basedir n))
                Int.max_signed Hfree) as (N & HN & HfN & Hleast).
    exists N. repeat split; try lia; try assumption.
    intros fuel Hfuel. unfold from_nothing_worldmap. rewrite Hpresent.
    rewrite (do_while_exists_first_free (worldmap_path basedir) N HN HfN
               Hleast fuel Hfuel).
    eexists. split; [ reflexivity | ]. apply create_yields_new_level.
Qed.

(** C10, as the code has it.  Both probing loops end as soon as some
    suffix [N >= 1] the counter can reach names no file, and they stop at
    the first such suffix; with enough fuel the allocators then have a
    result.  When every suffix from 1 to the largest [int] names a file,
    the loop stops at none of them: it is still running after any number
    of iterations up to that many, and the iteration after increments the
    largest [int].  That is undefined behaviour, not a loop that runs for
    ever. *)
Theorem probing_loops_terminate (basedir name : string) :
  (forall path : Z -> string,
     (exists n, 1 <= n <= Int.max_signed /\
        PHYSFS_exists env (path n) = false) ->
     exists N, 1 <= N <= Int.max_signed /\
       PHYSFS_exists env (path N) = false /\
       (forall k, 1 <= k < N -> PHYSFS_exists env (path k) = true) /\
       forall fuel : nat, (Z.to_nat N <= fuel)%nat ->
         do_while_exists env path fuel 0 = Found N) /\
  ((exists n, 1 <= n <= Int.max_signed /\
      PHYSFS_exists env (level_path basedir n) = false) ->
   exists fuel0 : nat, forall fuel : nat, (fuel0 <= fuel)%nat ->
     from_nothing env fuel basedir <> None) /\
  (PHYSFS_exists env (basedir ++ "/worldmap.stwm") = false \/
   (exists n, 1 <= n <= Int.max_signed /\
      PHYSFS_exists env (worldmap_path basedir n) = false) ->
   exists fuel0 : nat, forall fuel : nat, (fuel0 <= fuel)%nat ->
     from_nothing_worldmap env fuel basedir name <> None) /\
  (forall path : Z -> string,
     (forall n, 1 <= n <= Int.max_signed ->
        PHYSFS_exists env (path n) = true) ->
     forall fuel : nat,
       do_while_exists env path fuel 0 =
       if (fuel <=? Z.to_nat Int.max_signed)%nat then Unfinished
       else Overflow).
Proof.
  assert (Hloop : forall path : Z -> string,
     (exists n, 1 <= n <= Int.max_signed /\
        PHYSFS_exists env (path n) = false) ->
     exists N, 1 <= N <= Int.max_signed /\
       PHYSFS_exists env (path N) = false /\
       (forall k, 1 <= k < N -> PHYSFS_exists env (path k) = true) /\
       forall fuel : nat, (Z.to_nat N <= fuel)%nat ->
         do_while_exists env path fuel 0 = Found N).
  { intros path Hfree.
    destruct (least_failure (fun n => PHYSFS_exists env (path n))
                Int.max_signed Hfree) as (N & HN & HfN & Hleast).
    exists N. repeat split; try lia; try assumption.
    intros fuel Hfuel. now apply do_while_exists_first_free. }
  split; [ exact Hloop | ]. split; [ | split ].
  - intros Hfree.
    destruct (Hloop _ Hfree) as (N & _ & _ & _ & Hstop).
    exists (Z.to_nat N). intros fuel Hfuel. unfold from_nothing.
    rewrite (Hstop fuel Hfuel). discriminate.
  - intros Hcases.
    destruct (PHYSFS_exists env (basedir ++ "/worldmap.stwm")) eqn:Hplain.
    + destruct Hcases as [ Habsent | Hfree ]; [ discriminate | ].
      destruct (Hloop _ Hfree) as (N & _ & _ & _ & Hstop).
      exists (Z.to_nat N). intros fuel Hfuel. unfold from_nothing_worldmap.
      rewrite Hplain, (Hstop fuel Hfuel). discriminate.
    + exists 0%nat. intros fuel _. unfold from_nothing_worldmap.
      rewrite Hplain. discriminate.
  - intros path Hall fuel.
    rewrite (do_while_exists_exhausts path Hall fuel 0)
      by (unfold Int.max_signed; lia).
    now rewrite Z.sub_0_r.
Qed.

(** ** The loader *)

Ltac run_statements :=
  unfold new_parser, assign_m_filename;
  unfold bind, emit, update, read, call, ret, throw, try_catch;
  cbn [m_level events].

Lemma get_into_run {A : Type} (found : option A)
    (set_member : A -> Level -> Level) (w : World) :
  get_into found set_member w =
  (Returns tt, mkWorld (with_member found set_member (m_level w)) (events w)).
Proof. destruct found, w; reflexivity. Qed.

Lemma tag_test_passes (doc : ReaderDocument) :
  get_name env (get_root env doc) = "supertux-level" ->
  negb (get_name env (get_root env doc) =? "supertux-level")%string = false.
Proof. intros ->. reflexivity. Qed.

Lemma tag_test_fails (doc : ReaderDocument) :
  get_name env (get_root env doc) <> "supertux-level" ->
  negb (get_name env (get_root env doc) =? "supertux-level")%string = true.
Proof. intros H. apply String.eqb_neq in H. rewrite H. reflexivity. Qed.

(** C3.  A document with the right root tag and a version other than 1
    and 2 loads without an exception: the level is left as it was but for
    the statistics, which are initialised; the one thing logged is the
    warning, and no sector parser is called.  Through [from_stream] and
    [from_file] the level returned is the default one, with no sector. *)
Theorem unsupported_version_loads_nothing (editable : bool)
    (doc : ReaderDocument) (version : Z) :
  get_name env (get_root env doc) = "supertux-level" ->
  get_int env (get_mapping env (get_root env doc)) "version"
  = Some version ->
  version <> 1 ->
  version <> 2 ->
  let warning :=
    log_warning ("[" ++ get_filename env doc ++ "] level format version "
                 ++ to_string version ++ " is not supported") in
  (forall w,
     load_document env editable doc w =
     (Returns tt,
      mkWorld (set_m_stats (Statistics_init env (m_level w)) (m_level w))
              (events w ++ [warning] ++ [call_stats_init]))) /\
  (forall stream context w,
     ReaderDocument_from_stream env stream context = Returns doc ->
     exists lvl w',
       from_stream env stream context editable w = (Returns lvl, w') /\
       lvl = set_m_stats (Statistics_init env (Level_new env))
                         (Level_new env) /\
       m_sectors lvl = [] /\
       events w' = (events w ++ [open_stream context; warning;
                                 call_stats_init])%list) /\
  (forall filename w,
     ReaderDocument_from_file env filename = Returns doc ->
     exists lvl w',
       from_file env filename editable w = (Returns lvl, w') /\
       lvl = set_m_stats
               (Statistics_init env
                  (set_m_filename filename (Level_new env)))
               (set_m_filename filename (Level_new env)) /\
       m_sectors lvl = [] /\
       events w' = (events w ++ [store_m_filename filename;
                                 register_translation_directory filename;
                                 open_file filename; warning;
                                 call_stats_init])%list).
Proof.
  intros Htag Hversion Hnot1 Hnot2 warning.
  assert (Hload : forall w,
     load_document env editable doc w =
     (Returns tt,
      mkWorld (set_m_stats (Statistics_init env (m_level w)) (m_level w))
              (events w ++ [warning] ++ [call_stats_init]))).
  { intros w. unfold load_document.
    rewrite (tag_test_passes doc Htag), Hversion. unfold get_or.
    rewrite (proj2 (Z.eqb_neq version 1) Hnot1).
    rewrite (proj2 (Z.eqb_neq version 2) Hnot2).
    run_statements. rewrite <- app_assoc. reflexivity. }
  split; [ exact Hload | ]. split.
  - intros stream context w Hopen.
    unfold from_stream, load_stream. run_statements. rewrite Hopen.
    cbn [m_level events]. rewrite Hload. cbn [m_level events].
    eexists _, _. split; [ reflexivity | ].
    repeat split. rewrite <- app_assoc. reflexivity.
  - intros filename w Hopen.
    unfold from_file, load_file. run_statements. rewrite Hopen.
    cbn [m_level events]. rewrite Hload. cbn [m_level events].
    eexists _, _. split; [ reflexivity | ].
    repeat split. rewrite <- !app_assoc. reflexivity.
Qed.

(** C4.  On a document whose root tag is not [supertux-level],
    [get_level_name] returns the empty string and logs nothing, while the
    loader throws: [load] itself and [from_stream] the error that the
    file is no level file, [from_file] the same error wrapped with the
    file name. *)
Theorem wrong_root_tag (doc : ReaderDocument) :
  get_name env (get_root env doc) <> "supertux-level" ->
  (forall filename w,
     ReaderDocument_from_file env filename = Returns doc ->
     get_level_name env filename w =
     (Returns "",
      mkWorld (m_level w)
              (events w ++ [register_translation_directory filename;
                            open_file filename]))) /\
  (forall editable w,
     load_document env editable doc w =
     (Throws (runtime_error "file is not a supertux-level file."), w)) /\
  (forall editable stream context w,
     ReaderDocument_from_stream env stream context = Returns doc ->
     exists w',
       from_stream env stream context editable w =
       (Throws (runtime_error "file is not a supertux-level file."), w')) /\
  (forall editable filename w,
     ReaderDocument_from_file env filename = Returns doc ->
     exists w',
       from_file env filename editable w =
       (Throws (runtime_error
                  ("Problem when reading level '" ++ filename ++ "': "
                   ++ "file is not a supertux-level file.")), w')).
Proof.
  intros Htag.
  assert (Hload : forall editable w,
     load_document env editable doc w =
     (Throws (runtime_error "file is not a supertux-level file."), w)).
  { intros editable w. unfold load_document.
    rewrite (tag_test_fails doc Htag). reflexivity. }
  split; [ | split; [ exact Hload | split ] ].
  - intros filename w Hopen. unfold get_level_name. run_statements.
    rewrite Hopen, (tag_test_fails doc Htag).
    rewrite <- app_assoc. reflexivity.
  - intros editable stream context w Hopen.
    unfold from_stream, load_stream. run_statements.
    rewrite Hopen. cbn [m_level events]. rewrite Hload. eexists. reflexivity.
  - intros editable filename w Hopen.
    unfold from_file, load_file. run_statements.
    rewrite Hopen. cbn [m_level events]. rewrite Hload. eexists. reflexivity.
Qed.

(** C2.  A document with the right root tag and no [version] entry is
    loaded as a version 1 document is: the old-format notice is logged,
    [name] and [author] are read from the root mapping,
    [SectorParser::from_reader_old_format] is called on that same mapping
    with the level so updated, and its sector is the one sector appended
    (nothing is appended when it throws, and its exception leaves the
    loader). *)
Theorem missing_version_takes_legacy_path (editable : bool)
    (doc : ReaderDocument) (w : World) :
  let root := get_mapping env (get_root env doc) in
  get_name env (get_root env doc) = "supertux-level" ->
  get_int env root "version" = None \/ get_int env root "version" = Some 1 ->
  let notice :=
    log_info ("[" ++ get_filename env doc
              ++ "] level uses old format: version 1") in
  exists lvl : Level,
    m_name lvl = get_or (get_string env root "name") (m_name (m_level w)) /\
    m_author lvl
    = get_or (get_string env root "author") (m_author (m_level w)) /\
    m_sectors lvl = m_sectors (m_level w) /\
    match SectorParser_from_reader_old_format env lvl root editable with
    | Returns sector =>
        exists w',
          load_document env editable doc w = (Returns tt, w') /\
          m_name (m_level w') = m_name lvl /\
          m_author (m_level w') = m_author lvl /\
          m_sectors (m_level w') = (m_sectors (m_level w) ++ [sector])%list /\
          events w'
          = (events w ++ [notice; call_from_reader_old_format root;
                          call_stats_init])%list
    | Throws e =>
        exists w',
          load_document env editable doc w = (Throws e, w') /\
          m_sectors (m_level w') = m_sectors (m_level w) /\
          events w'
          = (events w ++ [notice; call_from_reader_old_format root])%list
    end.
Proof.
  intros root Htag Hversion notice.
  assert (Hlegacy : get_or (get_int env root "version") 1 = 1)
    by (destruct Hversion as [ -> | -> ]; reflexivity).
  unfold load_document. rewrite (tag_test_passes doc Htag).
  fold root. rewrite Hlegacy, Z.eqb_refl.
  unfold load_old_format. run_statements.
  repeat (rewrite get_into_run; cbn [m_level events]).
  match goal with
  | |- context [SectorParser_from_reader_old_format env ?l root editable] =>
      exists l
  end.
  repeat split;
    try (destruct (get_string env root "name"),
           (get_string env root "author"); reflexivity).
  match goal with
  | |- context [SectorParser_from_reader_old_format env ?l root editable] =>
      destruct (SectorParser_from_reader_old_format env l root editable)
        as [ sector | e ]
  end.
  - eexists. split; [ reflexivity | ]. cbn [m_level events].
    repeat split;
      try (destruct (get_string env root "name"),
             (get_string env root "author"); reflexivity).
    rewrite <- !app_assoc. reflexivity.
  - eexists. split; [ reflexivity | ]. cbn [m_level events].
    repeat split;
      try (destruct (get_string env root "name"),
             (get_string env root "author"); reflexivity).
    rewrite <- !app_assoc. reflexivity.
Qed.

(** *** Sectors of the current format *)

Lemma sector_nodes_cons (key : string) (node : ReaderMapping)
    (iter : list (string * ReaderMapping)) :
  sector_nodes ((key, node) :: iter) =
  if (key =? "sector")%string then node :: sector_nodes iter
  else sector_nodes iter.
Proof.
  unfold sector_nodes. cbn [filter fst].
  destruct (key =? "sector")%string; reflexivity.
Qed.

Lemma only_reader_calls (nodes : list ReaderMapping) :
  filter is_sector_call (map (@call_from_reader ReaderMapping) nodes)
  = map (@call_from_reader ReaderMapping) nodes.
Proof.
  induction nodes as [ | node nodes IH ]; [ reflexivity | ].
  cbn [map filter is_sector_call]. now rewrite IH.
Qed.

(** A field read by [get] into a member other than the sectors leaves the
    sectors alone. *)
Lemma get_into_keeps_sectors {A : Type} (found : option A)
    (set_member : A -> Level -> Level) (l : Level) :
  (forall v l', m_sectors (set_member v l') = m_sectors l') ->
  m_sectors (with_member found set_member l) = m_sectors l.
Proof. intros Hset. destruct found; [ apply Hset | reflexivity ]. Qed.

(** When the loop over the entries returns, it has called
    [SectorParser::from_reader] on each [sector] node in turn, and
    appended what each call returned. *)
Lemma load_sectors_returns (editable : bool)
    (iter : list (string * ReaderMapping)) :
  forall w w' : World,
    load_sectors env editable iter w = (Returns tt, w') ->
    exists sectors,
      m_sectors (m_level w') = (m_sectors (m_level w) ++ sectors)%list /\
      Forall2 (fun node s =>
                 exists lvl,
                   SectorParser_from_reader env lvl node editable = Returns s)
              (sector_nodes iter) sectors /\
      events w'
      = (events w ++ map (@call_from_reader ReaderMapping)
                         (sector_nodes iter))%list.
Proof.
  induction iter as [ | [key node] iter IH ]; intros w w' Hrun.
  - injection Hrun as <-. exists []. rewrite !app_nil_r.
    repeat split. constructor.
  - cbn [load_sectors] in Hrun. rewrite sector_nodes_cons.
    destruct (key =? "sector")%string.
    + revert Hrun. run_statements.
      destruct (SectorParser_from_reader env (m_level w) node editable)
        as [ s | e ] eqn:Hbuild; [ | discriminate ].
      intros Hrest. apply IH in Hrest as (sectors & Hsec & Hbuilt & Hev).
      cbn [m_level events add_sector m_sectors] in Hsec, Hev.
      exists (s :: sectors). repeat split.
      * rewrite Hsec, <- app_assoc. reflexivity.
      * constructor; [ exists (m_level w); exact Hbuild | exact Hbuilt ].
      * rewrite Hev, <- app_assoc. reflexivity.
    + revert Hrun. run_statements. intros Hrest.
      replace {| m_level := m_level w; events := events w |} with w in Hrest
        by (destruct w; reflexivity).
      now apply IH.
Qed.

(** The loop returns when the sector parser does on every [sector] node. *)
Lemma load_sectors_total (editable : bool)
    (iter : list (string * ReaderMapping)) :
  (forall lvl node, In node (sector_nodes iter) ->
     exists s, SectorParser_from_reader env lvl node editable = Returns s) ->
  forall w : World,
    exists w', load_sectors env editable iter w = (Returns tt, w').
Proof.
  induction iter as [ | [key node] iter IH ]; intros Hbuilds w.
  - eexists. reflexivity.
  - cbn [load_sectors]. rewrite sector_nodes_cons in Hbuilds.
    destruct (key =? "sector")%string.
    + run_statements.
      destruct (Hbuilds (m_level w) node (or_introl eq_refl)) as (s & ->).
      apply IH. intros lvl n Hn. apply Hbuilds. now right.
    + run_statements. apply IH. exact Hbuilds.
Qed.

(** C1.  Loading a version 2 document appends one sector for each child of
    the root mapping whose key is [sector], in the order of the document:
    each is what [SectorParser::from_reader] returned on that child, no
    other sector parser is called, and the other children add nothing.
    The load returns whenever that parser returns on every such child. *)
Theorem current_format_sectors_in_order (editable : bool)
    (doc : ReaderDocument) (w : World) :
  let root := get_mapping env (get_root env doc) in
  let nodes := sector_nodes (get_iter env root) in
  get_name env (get_root env doc) = "supertux-level" ->
  get_int env root "version" = Some 2 ->
  (forall w',
     load_document env editable doc w = (Returns tt, w') ->
     exists sectors calls,
       m_sectors (m_level w') = (m_sectors (m_level w) ++ sectors)%list /\
       Forall2 (fun node s =>
                  exists lvl,
                    SectorParser_from_reader env lvl node editable
                    = Returns s)
               nodes sectors /\
       events w' = (events w ++ calls)%list /\
       filter is_sector_call calls
       = map (@call_from_reader ReaderMapping) nodes) /\
  ((forall lvl node, In node nodes ->
      exists s, SectorParser_from_reader env lvl node editable = Returns s) ->
   exists w', load_document env editable doc w = (Returns tt, w')).
Proof.
  intros root nodes Htag Hversion.
  unfold load_document. rewrite (tag_test_passes doc Htag).
  fold root. rewrite Hversion. unfold get_or.
  change (2 =? 1)%Z with false. change (2 =? 2)%Z with true.
  run_statements.
  repeat (rewrite get_into_run; cbn [m_level events]).
  match goal with
  | |- context [load_sectors env editable (get_iter env root)
                  {| m_level := ?read; events := events w |}] =>
      assert (Hkept : m_sectors read = m_sectors (m_level w))
        by (repeat (rewrite get_into_keeps_sectors;
                    [ | intros; reflexivity ]); reflexivity);
      generalize dependent read
  end.
  intros l Hkept.
  split.
  - intros w'.
    destruct (load_sectors env editable (get_iter env root)
                {| m_level := l; events := events w |})
      as [ [ [] | e ] w1 ] eqn:Hloop; [ | discriminate ].
    apply load_sectors_returns in Hloop as (sectors & Hsec & Hbuilt & Hev).
    cbn [m_level events] in Hsec, Hev. rewrite Hkept in Hsec.
    destruct (m_license (m_level w1) =? "")%string;
      intros [= <-]; cbn [m_level events set_m_stats m_sectors];
      exists sectors; eexists; (split; [ exact Hsec | ]);
      (split; [ exact Hbuilt | ]);
      rewrite Hev, <- !app_assoc;
      (split; [ reflexivity | ]);
      rewrite filter_app, only_reader_calls; cbn [filter is_sector_call];
      apply app_nil_r.
  - intros Hbuilds.
    destruct (load_sectors_total editable (get_iter env root) Hbuilds
                {| m_level := l; events := events w |}) as (w1 & ->).
    destruct (m_license (m_level w1) =? "")%string; eexists; reflexivity.
Qed.

(** *** Statements that leave [m_filename] alone *)

Lemma stores_app (es es' : list Event) :
  stores (es ++ es') = (stores es ++ stores es')%list.
Proof. unfold stores. apply flat_map_app. Qed.

Lemma quiet_refl (w : World) : quiet w w.
Proof.
  split; [ reflexivity | ]. exists []. now rewrite app_nil_r.
Qed.

Lemma quiet_trans (w1 w2 w3 : World) :
  quiet w1 w2 -> quiet w2 w3 -> quiet w1 w3.
Proof.
  intros [Hf (es & Hes & Hs)] [Hf' (es' & Hes' & Hs')]. split.
  - now rewrite Hf'.
  - exists (es ++ es')%list. split.
    + now rewrite Hes', Hes, app_assoc.
    + now rewrite stores_app, Hs, Hs'.
Qed.

Lemma keeps_ret {A : Type} (a : A) : keeps_filename (ret a).
Proof. intros w outcome w' [= _ <-]. apply quiet_refl. Qed.

Lemma keeps_throw {A : Type} (e : exception) :
  keeps_filename (throw e : M World A).
Proof. intros w outcome w' [= _ <-]. apply quiet_refl. Qed.

Lemma keeps_call {A : Type} (r : Result A) : keeps_filename (call r).
Proof. intros w outcome w' [= _ <-]. apply quiet_refl. Qed.

Lemma keeps_read {A : Type} (f : Level -> A) : keeps_filename (read f).
Proof. intros w outcome w' [= _ <-]. apply quiet_refl. Qed.

Lemma keeps_emit (e : Event) : stores [e] = [] -> keeps_filename (emit e).
Proof.
  intros He w outcome w' [= _ <-]. split; [ reflexivity | ].
  exists [e]. split; [ reflexivity | exact He ].
Qed.

Lemma keeps_update (f : Level -> Level) :
  (forall l, m_filename (f l) = m_filename l) -> keeps_filename (update f).
Proof.
  intros Hf w outcome w' [= _ <-]. split; [ apply Hf | ].
  exists []. split; [ now rewrite app_nil_r | reflexivity ].
Qed.

Lemma keeps_bind {A B : Type} (m : M World A) (k : A -> M World B) :
  keeps_filename m -> (forall a, keeps_filename (k a)) ->
  keeps_filename (bind m k).
Proof.
  intros Hm Hk w outcome w'. unfold bind.
  destruct (m w) as [ [ a | e ] w1 ] eqn:Hrun; intros Hrest.
  - eapply quiet_trans; [ eapply Hm, Hrun | eapply Hk, Hrest ].
  - injection Hrest as _ <-. eapply Hm, Hrun.
Qed.

Lemma keeps_get_into {A : Type} (found : option A)
    (set_member : A -> Level -> Level) :
  (forall v l, m_filename (set_member v l) = m_filename l) ->
  keeps_filename (get_into found set_member).
Proof.
  intros Hset. destruct found; [ apply keeps_update, Hset | apply keeps_ret ].
Qed.

Ltac keeps :=
  repeat first
    [ apply keeps_bind; [ | intros ? ]
    | apply keeps_get_into; intros; reflexivity
    | apply keeps_update; intros; reflexivity
    | apply keeps_emit; reflexivity
    | apply keeps_ret
    | apply keeps_throw
    | apply keeps_call
    | apply keeps_read ].

Lemma load_sectors_keeps_filename (editable : bool)
    (iter : list (string * ReaderMapping)) :
  keeps_filename (load_sectors env editable iter).
Proof.
  induction iter as [ | [key node] iter IH ]; cbn [load_sectors].
  - apply keeps_ret.
  - apply keeps_bind; [ | intros _; exact IH ].
    destruct (key =? "sector")%string; keeps.
Qed.

Lemma load_old_format_keeps_filename (editable : bool)
    (reader : ReaderMapping) :
  keeps_filename (load_old_format env editable reader).
Proof. unfold load_old_format. keeps. Qed.

(** [load] on a document never stores into [m_filename]. *)
Lemma load_document_keeps_filename (editable : bool) (doc : ReaderDocument) :
  keeps_filename (load_document env editable doc).
Proof.
  unfold load_document.
  destruct (negb _); [ apply keeps_throw | ].
  apply keeps_bind; [ | intros _; keeps ].
  destruct (_ =? 1)%Z.
  - apply keeps_bind; [ keeps | intros _ ].
    apply load_old_format_keeps_filename.
  - destruct (_ =? 2)%Z; [ | keeps ].
    repeat (apply keeps_bind;
            [ apply keeps_get_into; intros; reflexivity | intros _ ]).
    apply keeps_bind; [ apply load_sectors_keeps_filename | intros _ ].
    apply keeps_bind; [ apply keeps_read | intros license ].
    destruct (license =? "")%string; keeps.
Qed.

(** *** Loading from a file *)

(** [load] on a path, step by step: the store, the registration, then the
    document is opened and loaded, and whatever either throws leaves
    wrapped. *)
Lemma load_file_run (editable : bool) (filepath : string) (w : World) :
  let w1 := mkWorld (set_m_filename filepath (m_level w))
                    (events w ++ [store_m_filename filepath;
                                  register_translation_directory filepath;
                                  open_file filepath]) in
  load_file env editable filepath w =
  match ReaderDocument_from_file env filepath with
  | Throws e => (Throws (problem_when_reading filepath e), w1)
  | Returns doc =>
      match load_document env editable doc w1 with
      | (Returns tt, w2) => (Returns tt, w2)
      | (Throws e, w2) => (Throws (problem_when_reading filepath e), w2)
      end
  end.
Proof.
  unfold load_file. run_statements. rewrite <- !app_assoc. cbn [app].
  destruct (ReaderDocument_from_file env filepath) as [ doc | e ];
    [ | reflexivity ].
  destruct (load_document env editable doc _) as [ [ [] | e ] w2 ];
    reflexivity.
Qed.

(** However [load] on a path ends, the store into [m_filename] came first
    and was the only one, and the member is the path. *)
Lemma load_file_stores_first (editable : bool) (filepath : string)
    (w : World) (outcome : Result unit) (w' : World) :
  load_file env editable filepath w = (outcome, w') ->
  m_filename (m_level w') = filepath /\
  exists rest,
    events w' = (events w ++ [store_m_filename filepath;
                              register_translation_directory filepath;
                              open_file filepath] ++ rest)%list /\
    stores rest = [].
Proof.
  rewrite load_file_run. cbv zeta.
  destruct (ReaderDocument_from_file env filepath) as [ doc | e ].
  - destruct (load_document env editable doc _) as [ result w2 ] eqn:Hload.
    destruct (load_document_keeps_filename editable doc _ _ _ Hload)
      as [ Hname (rest & Hev & Hrest) ].
    cbn [m_level events set_m_filename m_filename] in Hname, Hev.
    intros Hrun.
    assert (w' = w2) as ->
      by (destruct result as [ [] | ]; now injection Hrun).
    split; [ exact Hname | ]. exists rest.
    rewrite Hev, <- app_assoc. now split.
  - intros [= _ <-]. split; [ reflexivity | ]. exists [].
    cbn [m_level events]. rewrite app_nil_r. now split.
Qed.

(** C8.  [load] on a path stores the path into [m_filename] before it
    opens the document, and the member is that path whatever happens next.
    An exception of the document reader, or of the load of the document,
    leaves as a new [std::runtime_error] whose message names the path and
    the message of the original; nothing else is thrown, and [from_file]
    passes it on to its caller. *)
Theorem load_file_names_the_file (editable : bool) (filepath : string)
    (w : World) :
  exists outcome w' rest,
    load_file env editable filepath w = (outcome, w') /\
    events w' = (events w ++ [store_m_filename filepath;
                              register_translation_directory filepath;
                              open_file filepath] ++ rest)%list /\
    stores rest = [] /\
    m_filename (m_level w') = filepath /\
    (forall e, ReaderDocument_from_file env filepath = Throws e ->
       outcome = Throws (runtime_error
                           ("Problem when reading level '" ++ filepath
                            ++ "': " ++ what e))) /\
    (forall doc e w2,
       ReaderDocument_from_file env filepath = Returns doc ->
       load_document env editable doc
         (mkWorld (set_m_filename filepath (m_level w))
                  (events w ++ [store_m_filename filepath;
                                register_translation_directory filepath;
                                open_file filepath]))
       = (Throws e, w2) ->
       outcome = Throws (runtime_error
                           ("Problem when reading level '" ++ filepath
                            ++ "': " ++ what e))) /\
    (forall e', outcome = Throws e' ->
       exists e, e' = runtime_error
                        ("Problem when reading level '" ++ filepath
                         ++ "': " ++ what e)) /\
    (forall e', outcome = Throws e' ->
       m_level w = Level_new env ->
       fst (from_file env filepath editable w) = Throws e').
Proof.
  pose proof (load_file_run editable filepath w) as Hrun.
  cbv zeta in Hrun.
  destruct (load_file env editable filepath w) as [ outcome w' ] eqn:Hload.
  destruct (load_file_stores_first editable filepath w outcome w' Hload)
    as [ Hname (rest & Hev & Hrest) ].
  exists outcome, w', rest.
  repeat (split; [ assumption || reflexivity | ]).
  assert (Hwrapped : forall e',
            outcome = Throws e' ->
            exists e, e' = runtime_error
                             ("Problem when reading level '" ++ filepath
                              ++ "': " ++ what e)).
  { intros e' ->. revert Hrun.
    destruct (ReaderDocument_from_file env filepath) as [ doc | e ].
    - destruct (load_document env editable doc _) as [ [ [] | e ] w2 ];
        intros [= -> _]. now exists e.
    - intros [= -> _]. now exists e. }
  repeat split.
  - intros e Hopen. rewrite Hopen in Hrun. now injection Hrun as -> _.
  - intros doc e w2 Hopen Hthrows. rewrite Hopen, Hthrows in Hrun.
    now injection Hrun as -> _.
  - exact Hwrapped.
  - intros e' -> Hnew. unfold from_file, new_parser.
    unfold bind at 1. unfold update at 1. rewrite <- Hnew.
    replace {| m_level := m_level w; events := events w |} with w
      by (destruct w; reflexivity).
    unfold bind. rewrite Hload. reflexivity.
Qed.

(** *** Stores into [m_filename] by the entry points *)

(** [create] on a fresh parser stores into [m_filename] once. *)
Lemma create_stores_once (filepath levelname : string) (worldmap : bool)
    (w : World) :
  exists outcome w' es,
    (new_parser env ;; create env filepath levelname worldmap ;;
     read (fun l => l))%parser w = (outcome, w') /\
    events w' = (events w ++ es)%list /\
    stores es = [filepath] /\
    m_filename (m_level w') = filepath.
Proof.
  unfold create. run_statements.
  match goal with
  | |- context [SectorParser_from_nothing env ?seed] =>
      destruct (SectorParser_from_nothing env seed) as [ s | e ]
  end; eexists _, _, _; (split; [ reflexivity | ]); cbn [m_level events];
    rewrite <- !app_assoc; repeat split.
Qed.

(** C9, as the code has it.  [from_file], [from_nothing] and
    [from_nothing_worldmap], when they return a level, have stored into its
    [m_filename] exactly once, the value it has on return.  [from_stream]
    never stores into it: the level it returns has the empty file name of
    a new level. *)
Theorem filename_assigned_once_unless_from_stream :
  (forall filename editable (w : World) lvl w',
     from_file env filename editable w = (Returns lvl, w') ->
     exists es, events w' = (events w ++ es)%list /\
                stores es = [filename] /\ m_filename lvl = filename) /\
  (forall fuel basedir run (w : World) lvl w',
     from_nothing env fuel basedir = Some run ->
     run w = (Returns lvl, w') ->
     exists es, events w' = (events w ++ es)%list /\
                stores es = [m_filename lvl]) /\
  (forall fuel basedir name run (w : World) lvl w',
     from_nothing_worldmap env fuel basedir name = Some run ->
     run w = (Returns lvl, w') ->
     exists es, events w' = (events w ++ es)%list /\
                stores es = [m_filename lvl]) /\
  (forall stream context editable (w : World) lvl w',
     from_stream env stream context editable w = (Returns lvl, w') ->
     exists es, events w' = (events w ++ es)%list /\
                stores es = [] /\ m_filename lvl = "").
Proof.
  assert (Hcreate : forall filepath levelname worldmap (w : World) lvl w',
    (new_parser env ;; create env filepath levelname worldmap ;;
     read (fun l => l))%parser w = (Returns lvl, w') ->
    exists es, events w' = (events w ++ es)%list /\
               stores es = [m_filename lvl]).
  { intros filepath levelname worldmap w lvl w' Hrun.
    destruct (create_stores_once filepath levelname worldmap w)
      as (outcome & w1 & es & Hrun1 & Hev & Hst & Hname).
    rewrite Hrun in Hrun1. injection Hrun1 as <- <-.
    exists es. split; [ exact Hev | ].
    revert Hrun. unfold bind at 1.
    destruct (new_parser env w) as [ [ [] | ] w0 ]; [ | discriminate ].
    unfold bind.
    destruct (create env filepath levelname worldmap w0)
      as [ [ [] | ] w2 ]; [ | discriminate ].
    unfold read. intros [= <- <-]. now rewrite Hname. }
  split; [ | split; [ | split ] ].
  - intros filename editable w lvl w'. unfold from_file, new_parser.
    unfold bind at 1. unfold update at 1.
    unfold bind.
    destruct (load_file env editable filename _) as [ outcome w1 ] eqn:Hload.
    destruct (load_file_stores_first editable filename _ _ _ Hload)
      as [ Hname (rest & Hev & Hrest) ].
    cbn [m_level events] in Hev.
    destruct outcome as [ [] | e ]; [ | discriminate ].
    unfold read. intros [= <- <-].
    eexists. split; [ exact Hev | ]. split; [ | exact Hname ].
    rewrite stores_app, Hrest. reflexivity.
  - intros fuel basedir run w lvl w'. unfold from_nothing.
    destruct (do_while_exists env (level_path basedir) fuel 0);
      try discriminate.
    intros [= <-]. apply Hcreate.
  - intros fuel basedir name run w lvl w'. unfold from_nothing_worldmap.
    destruct (PHYSFS_exists env _).
    + destruct (do_while_exists env (worldmap_path basedir) fuel 0);
        try discriminate.
      intros [= <-]. apply Hcreate.
    + intros [= <-]. apply Hcreate.
  - intros stream context editable w lvl w'.
    unfold from_stream, new_parser, load_stream.
    unfold bind at 1. unfold update at 1.
    unfold bind at 1. unfold bind at 1. unfold emit at 1.
    cbn [m_level events]. unfold bind at 1. unfold call at 1.
    destruct (ReaderDocument_from_stream env stream context) as [ doc | e ];
      [ | discriminate ].
    destruct (load_document env editable doc _) as [ outcome w1 ] eqn:Hload.
    destruct (load_document_keeps_filename editable doc _ _ _ Hload)
      as [ Hname (rest & Hev & Hrest) ].
    cbn [m_level events] in Hname, Hev.
    destruct outcome as [ [] | e ]; [ | discriminate ].
    unfold read. intros [= <- <-].
    exists (open_stream context :: rest). split; [ | split ].
    + rewrite Hev, <- app_assoc. reflexivity.
    + cbn [stores flat_map app]. exact Hrest.
    + exact Hname.
Qed.

(** *** The name probe *)

(** C5, as the code has it.  [get_level_name] returns on every path and
    leaves the level alone.  When the document cannot be opened, it logs
    one warning with the path and the message of the exception, and
    returns the empty string.  When it can, nothing is logged and the
    result is the [name] entry of the root mapping, empty when there is
    none, if the root tag is [supertux-level]; it is the empty string if
    the root tag is anything else. *)
Theorem get_level_name_never_throws (filename : string) (w : World) :
  let opened := [register_translation_directory filename;
                 open_file filename] in
  (exists name w', get_level_name env filename w = (Returns name, w')) /\
  match ReaderDocument_from_file env filename with
  | Throws e =>
      get_level_name env filename w =
      (Returns "",
       mkWorld (m_level w)
               (events w ++ opened
                ++ [log_warning ("Problem getting name of '" ++ filename
                                 ++ "': " ++ what e)]))
  | Returns doc =>
      let root := get_root env doc in
      get_level_name env filename w =
      (Returns (if (get_name env root =? "supertux-level")%string
                then get_or (get_string env (get_mapping env root) "name") ""
                else ""),
       mkWorld (m_level w) (events w ++ opened))
  end.
Proof.
  intros opened.
  assert (Hrun :
    match ReaderDocument_from_file env filename with
    | Throws e =>
        get_level_name env filename w =
        (Returns "",
         mkWorld (m_level w)
                 (events w ++ opened
                  ++ [log_warning ("Problem getting name of '" ++ filename
                                   ++ "': " ++ what e)]))
    | Returns doc =>
        let root := get_root env doc in
        get_level_name env filename w =
        (Returns (if (get_name env root =? "supertux-level")%string
                  then get_or (get_string env (get_mapping env root) "name")
                              ""
                  else ""),
         mkWorld (m_level w) (events w ++ opened))
    end).
  { unfold get_level_name. run_statements. rewrite <- !app_assoc.
    destruct (ReaderDocument_from_file env filename) as [ doc | e ].
    - cbv zeta.
      destruct (get_name env (get_root env doc) =? "supertux-level")%string;
        reflexivity.
    - cbn [m_level events]. rewrite <- !app_assoc. reflexivity. }
  split; [ | exact Hrun ].
  destruct (ReaderDocument_from_file env filename);
    rewrite Hrun; eexists _, _; reflexivity.
Qed.

(** ** More on the loader *)

(** *** What the loop over the entries does, however it ends *)

Lemma add_sectors_fields (ss : list Sector) (l : Level) :
  add_sectors ss l =
  mkLevel (m_filename l) (m_name l) (m_author l) (m_contact l) (m_license l)
          (m_target_time l) (m_tileset l) (m_sectors l ++ ss) (m_stats l).
Proof.
  revert l. induction ss as [ | s ss IH ]; intros l.
  - destruct l. cbn. now rewrite app_nil_r.
  - change (add_sectors (s :: ss) l) with (add_sectors ss (add_sector s l)).
    rewrite IH. cbn. now rewrite <- app_assoc.
Qed.

(** The loop appends the sectors of a prefix of the [sector] nodes and
    touches nothing else; it throws only what the sector parser threw. *)
Lemma load_sectors_effects (editable : bool)
    (iter : list (string * ReaderMapping)) :
  forall (w : World) outcome w',
    load_sectors env editable iter w = (outcome, w') ->
    exists sectors visited,
      m_level w' = add_sectors sectors (m_level w) /\
      events w'
      = (events w ++ map (@call_from_reader ReaderMapping) visited)%list /\
      (outcome = Returns tt -> visited = sector_nodes iter) /\
      (outcome = Returns tt -> length sectors = length (sector_nodes iter)) /\
      (forall e, outcome = Throws e ->
         exists lvl node,
           SectorParser_from_reader env lvl node editable = Throws e).
Proof.
  induction iter as [ | [key node] iter IH ]; intros w outcome w' Hrun.
  - injection Hrun as <- <-. exists [], [].
    rewrite app_nil_r. repeat split. intros e [=].
  - cbn [load_sectors] in Hrun. rewrite sector_nodes_cons.
    destruct (key =? "sector")%string.
    + revert Hrun. run_statements.
      destruct (SectorParser_from_reader env (m_level w) node editable)
        as [ s | e ] eqn:Hbuild.
      * intros Hrest.
        apply IH in Hrest
          as (sectors & visited & Hlvl & Hev & Hall & Hlen & Hthrow).
        cbn [m_level events] in Hlvl, Hev.
        exists (s :: sectors), (node :: visited). repeat split.
        -- exact Hlvl.
        -- rewrite Hev, <- app_assoc. reflexivity.
        -- intros Hret. now rewrite (Hall Hret).
        -- intros Hret. cbn [length]. now rewrite (Hlen Hret).
        -- exact Hthrow.
      * intros [= <- <-]. exists [], [node]. repeat split; try discriminate.
        intros e' [= <-]. now exists (m_level w), node.
    + revert Hrun. run_statements. intros Hrest.
      replace {| m_level := m_level w; events := events w |} with w in Hrest
        by (destruct w; reflexivity).
      now apply IH.
Qed.

(** *** [load] on a document, path by path *)

Lemma load_document_foreign_run (editable : bool) (doc : ReaderDocument)
    (w : World) :
  get_name env (get_root env doc) <> "supertux-level" ->
  load_document env editable doc w = (Throws not_a_level, w).
Proof.
  intros Htag. unfold load_document.
  rewrite (tag_test_fails doc Htag). reflexivity.
Qed.

Lemma load_document_legacy_run (editable : bool) (doc : ReaderDocument)
    (w : World) :
  let root := get_mapping env (get_root env doc) in
  let lvl := with_member (get_string env root "author") set_m_author
               (with_member (get_string env root "name") set_m_name
                  (m_level w)) in
  let called := [old_format_notice (get_filename env doc);
                 call_from_reader_old_format root] in
  get_name env (get_root env doc) = "supertux-level" ->
  get_or (get_int env root "version") 1 = 1 ->
  load_document env editable doc w =
  match SectorParser_from_reader_old_format env lvl root editable with
  | Returns s =>
      (Returns tt,
       mkWorld (set_m_stats (Statistics_init env (add_sector s lvl))
                            (add_sector s lvl))
               (events w ++ called ++ [call_stats_init]))
  | Throws e => (Throws e, mkWorld lvl (events w ++ called))
  end.
Proof.
  intros root lvl called Htag Hversion.
  unfold load_document. rewrite (tag_test_passes doc Htag).
  fold root. rewrite Hversion, Z.eqb_refl.
  unfold load_old_format. run_statements.
  repeat (rewrite get_into_run; cbn [m_level events]).
  fold lvl.
  destruct (SectorParser_from_reader_old_format env lvl root editable);
    cbn [m_level events]; rewrite <- !app_assoc; reflexivity.
Qed.

Lemma load_document_unsupported_run (editable : bool)
    (doc : ReaderDocument) (w : World) :
  let root := get_mapping env (get_root env doc) in
  let version := get_or (get_int env root "version") 1 in
  get_name env (get_root env doc) = "supertux-level" ->
  version <> 1 ->
  version <> 2 ->
  load_document env editable doc w =
  (Returns tt,
   mkWorld (set_m_stats (Statistics_init env (m_level w)) (m_level w))
           (events w ++ [unsupported_warning (get_filename env doc) version;
                         call_stats_init])).
Proof.
  intros root version Htag Hnot1 Hnot2.
  unfold load_document. rewrite (tag_test_passes doc Htag).
  fold root. fold version.
  rewrite (proj2 (Z.eqb_neq version 1) Hnot1).
  rewrite (proj2 (Z.eqb_neq version 2) Hnot2).
  run_statements. rewrite <- app_assoc. reflexivity.
Qed.

Lemma load_document_current_run (editable : bool) (doc : ReaderDocument)
    (w : World) :
  let root := get_mapping env (get_root env doc) in
  get_name env (get_root env doc) = "supertux-level" ->
  get_or (get_int env root "version") 1 = 2 ->
  load_document env editable doc w =
  match load_sectors env editable (get_iter env root)
          (mkWorld (read_metadata env root (m_level w)) (events w)) with
  | (Returns _, w1) =>
      let l := m_level w1 in
      (Returns tt,
       mkWorld (set_m_stats (Statistics_init env l) l)
               (events w1
                ++ (if (m_license l =? "")%string
                    then [license_warning (get_filename env doc)
                            (m_author l) (m_name l)]
                    else [])
                ++ [call_stats_init]))
  | (Throws e, w1) => (Throws e, w1)
  end.
Proof.
  intros root Htag Hversion.
  unfold load_document. rewrite (tag_test_passes doc Htag).
  fold root. rewrite Hversion.
  change (2 =? 1)%Z with false. change (2 =? 2)%Z with true.
  run_statements.
  repeat (rewrite get_into_run; cbn [m_level events]).
  fold (read_metadata env root (m_level w)).
  destruct (load_sectors env editable (get_iter env root) _)
    as [ [ [] | e ] w1 ]; [ | reflexivity ].
  destruct (m_license (m_level w1) =? "")%string;
    cbn [m_level events app]; rewrite <- ?app_assoc; reflexivity.
Qed.

(** The level after the loop has the metadata it had before it. *)
Lemma read_metadata_sectors (root : ReaderMapping) (l : Level) :
  m_sectors (read_metadata env root l) = m_sectors l /\
  m_filename (read_metadata env root l) = m_filename l /\
  m_stats (read_metadata env root l) = m_stats l.
Proof.
  unfold read_metadata.
  destruct (get_float env root "target-time"),
    (get_string env root "license"), (get_string env root "contact"),
    (get_string env root "author"), (get_string env root "name"),
    (get_string env root "tileset"); repeat split.
Qed.

Lemma read_metadata_members (root : ReaderMapping) (l : Level) :
  let l' := read_metadata env root l in
  m_tileset l' = get_or (get_string env root "tileset") (m_tileset l) /\
  m_name l' = get_or (get_string env root "name") (m_name l) /\
  m_author l' = get_or (get_string env root "author") (m_author l) /\
  m_contact l' = get_or (get_string env root "contact") (m_contact l) /\
  m_license l' = get_or (get_string env root "license") (m_license l) /\
  m_target_time l'
  = get_or (get_float env root "target-time") (m_target_time l).
Proof.
  unfold read_metadata.
  destruct (get_float env root "target-time"),
    (get_string env root "license"), (get_string env root "contact"),
    (get_string env root "author"), (get_string env root "name"),
    (get_string env root "tileset"); repeat split.
Qed.

Lemma no_stats_init_among_reader_calls (nodes : list ReaderMapping) :
  ~ In call_stats_init (map (@call_from_reader ReaderMapping) nodes).
Proof.
  induction nodes as [ | node nodes IH ]; [ intros [] | ].
  intros [ Heq | Hin ]; [ discriminate Heq | exact (IH Hin) ].
Qed.

(** X1.  The events of a returning load of a version 2 document are the
    calls of [SectorParser::from_reader], one for each [sector] child in
    the order of the document, then the license warning if and only if the
    license the level ends with is empty (it names the document and the
    author and name the level ends with), then the statistics
    initialisation.  Nothing else is logged. *)
Theorem current_format_events (editable : bool) (doc : ReaderDocument)
    (w w' : World) :
  let root := get_mapping env (get_root env doc) in
  let author := get_or (get_string env root "author") (m_author (m_level w)) in
  let name := get_or (get_string env root "name") (m_name (m_level w)) in
  let license :=
    get_or (get_string env root "license") (m_license (m_level w)) in
  get_name env (get_root env doc) = "supertux-level" ->
  get_int env root "version" = Some 2 ->
  load_document env editable doc w = (Returns tt, w') ->
  events w'
  = (events w
     ++ map (@call_from_reader ReaderMapping)
            (sector_nodes (get_iter env root))
     ++ (if (license =? "")%string
         then [license_warning (get_filename env doc) author name]
         else [])
     ++ [call_stats_init])%list.
Proof.
  intros root author name license Htag Hversion.
  rewrite (load_document_current_run editable doc w Htag)
    by (fold root; now rewrite Hversion).
  fold root.
  destruct (load_sectors env editable (get_iter env root) _)
    as [ [ [] | e ] w1 ] eqn:Hloop; [ | discriminate ].
  apply load_sectors_effects in Hloop
    as (sectors & visited & Hlvl & Hev & Hall & _ & _).
  cbn [m_level events] in Hlvl, Hev. rewrite (Hall eq_refl) in Hev.
  destruct (read_metadata_members root (m_level w))
    as (_ & Hname & Hauthor & _ & Hlicense & _).
  intros [= <-]. cbn [events m_level].
  rewrite Hlvl, add_sectors_fields. cbn [m_license m_author m_name].
  rewrite Hname, Hauthor, Hlicense, Hev, <- app_assoc. reflexivity.
Qed.

(** X2.  After a returning load of a version 2 document, each of the
    members tileset, name, author, contact, license and target time is the
    entry of the root mapping when [get] finds one and is what it was
    before the load when it finds none; the file name is what it was. *)
Theorem current_format_metadata (editable : bool) (doc : ReaderDocument)
    (w w' : World) :
  let root := get_mapping env (get_root env doc) in
  let before := m_level w in
  let after := m_level w' in
  get_name env (get_root env doc) = "supertux-level" ->
  get_int env root "version" = Some 2 ->
  load_document env editable doc w = (Returns tt, w') ->
  m_tileset after
  = get_or (get_string env root "tileset") (m_tileset before) /\
  m_name after = get_or (get_string env root "name") (m_name before) /\
  m_author after = get_or (get_string env root "author") (m_author before) /\
  m_contact after
  = get_or (get_string env root "contact") (m_contact before) /\
  m_license after
  = get_or (get_string env root "license") (m_license before) /\
  m_target_time after
  = get_or (get_float env root "target-time") (m_target_time before) /\
  m_filename after = m_filename before.
Proof.
  intros root before after Htag Hversion.
  rewrite (load_document_current_run editable doc w Htag)
    by (fold root; now rewrite Hversion).
  fold root.
  destruct (load_sectors env editable (get_iter env root) _)
    as [ [ [] | e ] w1 ] eqn:Hloop; [ | discriminate ].
  apply load_sectors_effects in Hloop as (sectors & visited & Hlvl & _).
  cbn [m_level events] in Hlvl.
  destruct (read_metadata_members root (m_level w))
    as (Htileset & Hname & Hauthor & Hcontact & Hlicense & Htime).
  destruct (read_metadata_sectors root (m_level w)) as (_ & Hfile & _).
  intros [= Hw']. subst after w'. cbn [m_level].
  rewrite Hlvl, add_sectors_fields. cbn.
  now rewrite Htileset, Hname, Hauthor, Hcontact, Hlicense, Htime, Hfile.
Qed.

(** X3.  A version 2 document without a [sector] child loads all the
    same: the load returns, calls no sector parser, appends no sector, and
    initialises the statistics on the level as it is then. *)
Theorem current_format_without_sectors (editable : bool)
    (doc : ReaderDocument) (w : World) :
  let root := get_mapping env (get_root env doc) in
  get_name env (get_root env doc) = "supertux-level" ->
  get_int env root "version" = Some 2 ->
  sector_nodes (get_iter env root) = [] ->
  exists w' l,
    load_document env editable doc w = (Returns tt, w') /\
    m_level w' = set_m_stats (Statistics_init env l) l /\
    m_sectors l = m_sectors (m_level w) /\
    filter is_sector_call (events w') = filter is_sector_call (events w).
Proof.
  intros root Htag Hversion Hnone.
  rewrite (load_document_current_run editable doc w Htag)
    by (fold root; now rewrite Hversion).
  fold root.
  destruct (load_sectors_total editable (get_iter env root)) with
    (w := mkWorld (read_metadata env root (m_level w)) (events w))
    as (w1 & Hloop).
  { rewrite Hnone. intros lvl node []. }
  rewrite Hloop.
  apply load_sectors_effects in Hloop
    as (sectors & visited & Hlvl & Hev & Hall & Hlen & _).
  cbn [m_level events] in Hlvl, Hev.
  rewrite (Hall eq_refl), Hnone in Hev. cbn [map] in Hev.
  rewrite app_nil_r in Hev.
  specialize (Hlen eq_refl). rewrite Hnone in Hlen.
  destruct sectors; [ | discriminate Hlen ].
  eexists _, (m_level w1). split; [ reflexivity | ]. cbn [m_level events].
  split; [ reflexivity | ]. split.
  - rewrite Hlvl. apply read_metadata_sectors.
  - rewrite Hev, !filter_app.
    destruct (m_license (m_level w1) =? "")%string;
      cbn; now rewrite app_nil_r.
Qed.

(** X4.  [load] initialises the statistics exactly when it returns, as its
    last step and on the level with every sector attached; when it throws,
    the statistics are what they were and were not initialised. *)
Theorem statistics_initialised_last (editable : bool) (doc : ReaderDocument)
    (w : World) outcome (w' : World) :
  load_document env editable doc w = (outcome, w') ->
  match outcome with
  | Returns _ =>
      exists l es,
        m_level w' = set_m_stats (Statistics_init env l) l /\
        events w' = (events w ++ es ++ [call_stats_init])%list /\
        ~ In call_stats_init es
  | Throws _ =>
      m_stats (m_level w') = m_stats (m_level w) /\
      exists es,
        events w' = (events w ++ es)%list /\ ~ In call_stats_init es
  end.
Proof.
  set (root := get_mapping env (get_root env doc)).
  destruct (string_dec (get_name env (get_root env doc)) "supertux-level")
    as [ Htag | Htag ].
  2:{ rewrite (load_document_foreign_run editable doc w Htag).
      intros [= <- <-]. split; [ reflexivity | ].
      exists []. rewrite app_nil_r. split; [ reflexivity | intros [] ]. }
  destruct (Z.eq_dec (get_or (get_int env root "version") 1) 1)
    as [ Hv1 | Hv1 ].
  { rewrite (load_document_legacy_run editable doc w Htag Hv1). fold root.
    destruct (SectorParser_from_reader_old_format env _ root editable)
      as [ s | e ]; intros [= <- <-]; cbn [m_level events].
    - eexists _, [_; _]. split; [ reflexivity | ]. split; [ reflexivity | ].
      intros [ Heq | [ Heq | [] ] ]; discriminate Heq.
    - split.
      + destruct (get_string env root "author"),
          (get_string env root "name"); reflexivity.
      + eexists. split; [ reflexivity | ].
        intros [ Heq | [ Heq | [] ] ]; discriminate Heq. }
  destruct (Z.eq_dec (get_or (get_int env root "version") 1) 2)
    as [ Hv2 | Hv2 ].
  { rewrite (load_document_current_run editable doc w Htag Hv2). fold root.
    destruct (load_sectors env editable (get_iter env root) _)
      as [ [ [] | e ] w1 ] eqn:Hloop;
      apply load_sectors_effects in Hloop
        as (sectors & visited & Hlvl & Hev & _);
      cbn [m_level events] in Hlvl, Hev; intros [= <- <-].
    - match goal with
      | |- context [if ?c then ?a else ?b] =>
          exists (m_level w1),
            (map (@call_from_reader ReaderMapping) visited
             ++ (if c then a else b))%list
      end.
      split; [ reflexivity | ].
      cbn [events]. rewrite Hev.
      split; [ now rewrite <- !app_assoc | ].
      intros Hin. apply in_app_or in Hin as [ Hin | Hin ].
      + exact (no_stats_init_among_reader_calls visited Hin).
      + destruct (m_license (m_level w1) =? "")%string;
          [ destruct Hin as [ Heq | [] ]; discriminate Heq | destruct Hin ].
    - split.
      + rewrite Hlvl, add_sectors_fields. cbn [m_stats].
        apply read_metadata_sectors.
      + eexists. split; [ exact Hev | ].
        apply no_stats_init_among_reader_calls. }
  rewrite (load_document_unsupported_run editable doc w Htag Hv1 Hv2).
  intros [= <- <-]. cbn [m_level events].
  eexists _, [_]. split; [ reflexivity | ]. split; [ reflexivity | ].
  intros [ Heq | [] ]; discriminate Heq.
Qed.

(** X5.  [load] on a document throws nothing of its own but the error
    that the file is no level file, which it throws on another root tag
    before it touches anything; any other exception is one a reading
    entry point of the sector parser threw.  [from_stream] passes on,
    unwrapped, that and what [ReaderDocument::from_stream] throws. *)
Theorem loader_exceptions_origin (editable : bool) :
  (forall (doc : ReaderDocument) (w : World) e w',
     load_document env editable doc w = (Throws e, w') ->
     (get_name env (get_root env doc) <> "supertux-level" /\
      e = runtime_error "file is not a supertux-level file." /\ w' = w) \/
     (get_name env (get_root env doc) = "supertux-level" /\
      sector_parser_throws env editable e)) /\
  (forall stream context (w : World) e w',
     from_stream env stream context editable w = (Throws e, w') ->
     ReaderDocument_from_stream env stream context = Throws e \/
     e = runtime_error "file is not a supertux-level file." \/
     sector_parser_throws env editable e).
Proof.
  assert (Hload : forall (doc : ReaderDocument) (w : World) e w',
     load_document env editable doc w = (Throws e, w') ->
     (get_name env (get_root env doc) <> "supertux-level" /\
      e = runtime_error "file is not a supertux-level file." /\ w' = w) \/
     (get_name env (get_root env doc) = "supertux-level" /\
      sector_parser_throws env editable e)).
  { intros doc w e w'.
    set (root := get_mapping env (get_root env doc)).
    destruct (string_dec (get_name env (get_root env doc)) "supertux-level")
      as [ Htag | Htag ].
    2:{ rewrite (load_document_foreign_run editable doc w Htag).
        intros [= <- <-]. left. now repeat split. }
    intros Hrun. right. split; [ exact Htag | ]. revert Hrun.
    destruct (Z.eq_dec (get_or (get_int env root "version") 1) 1)
      as [ Hv1 | Hv1 ].
    { rewrite (load_document_legacy_run editable doc w Htag Hv1). fold root.
      destruct (SectorParser_from_reader_old_format env _ root editable)
        as [ s | e0 ] eqn:Hbuild; intros [= <- <-].
      eexists _, root. right. exact Hbuild. }
    destruct (Z.eq_dec (get_or (get_int env root "version") 1) 2)
      as [ Hv2 | Hv2 ].
    { rewrite (load_document_current_run editable doc w Htag Hv2). fold root.
      destruct (load_sectors env editable (get_iter env root) _)
        as [ [ [] | e0 ] w1 ] eqn:Hloop; intros [= <- <-].
      apply load_sectors_effects in Hloop
        as (_ & _ & _ & _ & _ & _ & Hthrow).
      destruct (Hthrow e0 eq_refl) as (lvl & node & Hbuild).
      exists lvl, node. left. exact Hbuild. }
    rewrite (load_document_unsupported_run editable doc w Htag Hv1 Hv2).
    discriminate. }
  split; [ exact Hload | ].
  intros stream context w e w'.
  unfold from_stream, load_stream. run_statements.
  destruct (ReaderDocument_from_stream env stream context) as [ doc | e0 ].
  - destruct (load_document env editable doc _) as [ [ [] | e0 ] w1 ] eqn:Hrun;
      intros [= <- <-].
    right. destruct (Hload _ _ _ _ Hrun) as [ (_ & He & _) | (_ & He) ].
    + now left.
    + now right.
  - intros [= <- <-]. now left.
Qed.

(** X6.  A version 1 load reads [name] and [author] and nothing else from
    the document: file name, tileset, contact, license and target time are
    what they were whatever entries the root mapping has and whatever the
    outcome, no warning is logged (an empty license goes unremarked), and
    the current-format entry point of the sector parser is not called. *)
Theorem legacy_load_leaves_rest (editable : bool) (doc : ReaderDocument)
    (w : World) outcome (w' : World) :
  let root := get_mapping env (get_root env doc) in
  get_name env (get_root env doc) = "supertux-level" ->
  get_int env root "version" = None \/ get_int env root "version" = Some 1 ->
  load_document env editable doc w = (outcome, w') ->
  m_filename (m_level w') = m_filename (m_level w) /\
  m_tileset (m_level w') = m_tileset (m_level w) /\
  m_contact (m_level w') = m_contact (m_level w) /\
  m_license (m_level w') = m_license (m_level w) /\
  m_target_time (m_level w') = m_target_time (m_level w) /\
  exists es,
    events w' = (events w ++ es)%list /\
    (forall msg, ~ In (log_warning msg) es) /\
    (forall node, ~ In (call_from_reader node) es).
Proof.
  intros root Htag Hversion.
  assert (Hv1 : get_or (get_int env root "version") 1 = 1)
    by (destruct Hversion as [ -> | -> ]; reflexivity).
  rewrite (load_document_legacy_run editable doc w Htag Hv1). fold root.
  destruct (SectorParser_from_reader_old_format env _ root editable)
    as [ s | e ]; intros [= <- <-]; cbn [m_level events];
    (repeat (split; [ destruct (get_string env root "author"),
                        (get_string env root "name"); reflexivity | ]));
    eexists; (split; [ reflexivity | ]); split; intros x Hin;
    repeat (destruct Hin as [ Heq | Hin ]; [ discriminate Heq | ]);
    destruct Hin.
Qed.

(** X7.  [load] on a document only ever appends to the sectors of the
    level: whatever the version and whether it returns or throws, the
    sectors the level had are the first sectors it has afterwards, in the
    same order. *)
Theorem load_only_appends_sectors (editable : bool) (doc : ReaderDocument)
    (w : World) outcome (w' : World) :
  load_document env editable doc w = (outcome, w') ->
  exists sectors,
    m_sectors (m_level w') = (m_sectors (m_level w) ++ sectors)%list.
Proof.
  set (root := get_mapping env (get_root env doc)).
  destruct (string_dec (get_name env (get_root env doc)) "supertux-level")
    as [ Htag | Htag ].
  2:{ rewrite (load_document_foreign_run editable doc w Htag).
      intros [= <- <-]. exists []. now rewrite app_nil_r. }
  destruct (Z.eq_dec (get_or (get_int env root "version") 1) 1)
    as [ Hv1 | Hv1 ].
  { rewrite (load_document_legacy_run editable doc w Htag Hv1). fold root.
    destruct (SectorParser_from_reader_old_format env _ root editable)
      as [ s | e ]; intros [= <- <-]; cbn [m_level];
      [ exists [s] | exists []; rewrite app_nil_r ];
      destruct (get_string env root "author"),
        (get_string env root "name"); reflexivity. }
  destruct (Z.eq_dec (get_or (get_int env root "version") 1) 2)
    as [ Hv2 | Hv2 ].
  { rewrite (load_document_current_run editable doc w Htag Hv2). fold root.
    destruct (load_sectors env editable (get_iter env root) _)
      as [ [ [] | e ] w1 ] eqn:Hloop;
      apply load_sectors_effects in Hloop as (sectors & _ & Hlvl & _);
      cbn [m_level] in Hlvl; intros [= <- <-]; cbn [m_level];
      exists sectors; rewrite Hlvl, add_sectors_fields; cbn [m_sectors];
      now rewrite (proj1 (read_metadata_sectors root (m_level w))). }
  rewrite (load_document_unsupported_run editable doc w Htag Hv1 Hv2).
  intros [= <- <-]. exists []. now rewrite app_nil_r.
Qed.

(** ** More on the allocators *)

(** X8.  An allocator that has a result never settled on a file that
    exists.  The counter stayed between 1 and the largest [int]; the path
    it probed last, the directory followed by the file name the level
    gets, names no file; and every suffix below names one.  Nothing is
    assumed about a free suffix: this is what a result means. *)
Theorem allocators_pick_free_file :
  (forall fuel basedir run,
     from_nothing env fuel basedir = Some run ->
     exists N,
       1 <= N <= Int.max_signed /\
       PHYSFS_exists env (basedir ++ "/level" ++ to_string N ++ ".stl")
       = false /\
       (forall k, 1 <= k < N ->
          PHYSFS_exists env (basedir ++ "/level" ++ to_string k ++ ".stl")
          = true) /\
       yields_new_level env run
         ("level" ++ to_string N ++ ".stl") ("Level " ++ to_string N)) /\
  (forall fuel basedir name run,
     from_nothing_worldmap env fuel basedir name = Some run ->
     (PHYSFS_exists env (basedir ++ "/worldmap.stwm") = false /\
      yields_new_level env run "worldmap.stwm" name) \/
     (PHYSFS_exists env (basedir ++ "/worldmap.stwm") = true /\
      exists N,
        1 <= N <= Int.max_signed /\
        PHYSFS_exists env (basedir ++ "/worldmap" ++ to_string N ++ ".stwm")
        = false /\
        (forall k, 1 <= k < N ->
           PHYSFS_exists env
             (basedir ++ "/worldmap" ++ to_string k ++ ".stwm") = true) /\
        yields_new_level env run
          ("worldmap" ++ to_string N ++ ".stwm") name)).
Proof.
  split.
  - intros fuel basedir run. unfold from_nothing.
    destruct (do_while_exists env (level_path basedir) fuel 0)
      as [ N | | ] eqn:Hloop; try discriminate.
    intros [= <-].
    apply do_while_exists_found in Hloop as (HN & Hfree & Hbelow).
    exists N. repeat split; try lia; try assumption.
    + intros k Hk. apply Hbelow. lia.
    + apply create_yields_new_level.
  - intros fuel basedir name run. unfold from_nothing_worldmap.
    destruct (PHYSFS_exists env (basedir ++ "/worldmap.stwm")) eqn:Hplain.
    + destruct (do_while_exists env (worldmap_path basedir) fuel 0)
        as [ N | | ] eqn:Hloop; try discriminate.
      intros [= <-].
      apply do_while_exists_found in Hloop as (HN & Hfree & Hbelow).
      right. split; [ reflexivity | ].
      exists N. repeat split; try lia; try assumption.
      * intros k Hk. apply Hbelow. lia.
      * apply create_yields_new_level.
    + intros [= <-]. left. split; [ reflexivity | ].
      apply create_yields_new_level.
Qed.

(** [create] on a fresh parser, when it returns. *)
Lemma create_run_returns (filepath levelname : string) (worldmap : bool)
    (w : World) (lvl : Level) (w' : World) :
  (new_parser env ;; create env filepath levelname worldmap ;;
   read (fun l => l))%parser w = (Returns lvl, w') ->
  m_filename lvl = filepath /\
  seeded_by_create env
    (if worldmap then "images/worldmap.strf" else "images/tiles.strf")
    lvl w w'.
Proof.
  unfold create. run_statements.
  match goal with
  | |- context [SectorParser_from_nothing env ?seed] =>
      destruct (SectorParser_from_nothing env seed) as [ s | e ]
  end; [ | discriminate ].
  intros [= <- <-]. unfold seeded_by_create. cbn.
  rewrite <- !app_assoc. repeat split.
Qed.

(** X9.  The level [from_nothing] returns has the license
    [CC-BY-SA 4.0 International] and the tileset [images/tiles.strf], the
    one [from_nothing_worldmap] returns the same license and the tileset
    [images/worldmap.strf].  Author, contact and target time are those of
    a new level.  Neither initialises the statistics: all either does is
    the store into [m_filename] and the call of
    [SectorParser::from_nothing]. *)
Theorem allocators_seed_metadata :
  (forall fuel basedir run (w : World) lvl w',
     from_nothing env fuel basedir = Some run ->
     run w = (Returns lvl, w') ->
     seeded_by_create env "images/tiles.strf" lvl w w') /\
  (forall fuel basedir name run (w : World) lvl w',
     from_nothing_worldmap env fuel basedir name = Some run ->
     run w = (Returns lvl, w') ->
     seeded_by_create env "images/worldmap.strf" lvl w w').
Proof.
  split.
  - intros fuel basedir run w lvl w'. unfold from_nothing.
    destruct (do_while_exists env (level_path basedir) fuel 0);
      try discriminate.
    intros [= <-] Hrun.
    exact (proj2 (create_run_returns _ _ false w lvl w' Hrun)).
  - intros fuel basedir name run w lvl w'. unfold from_nothing_worldmap.
    destruct (PHYSFS_exists env _).
    + destruct (do_while_exists env (worldmap_path basedir) fuel 0);
        try discriminate.
      intros [= <-] Hrun.
      exact (proj2 (create_run_returns _ _ true w lvl w' Hrun)).
    + intros [= <-] Hrun.
      exact (proj2 (create_run_returns _ _ true w lvl w' Hrun)).
Qed.

(** ** The name probe and the loader together *)

(** X10.  On a file whose document has the root tag [supertux-level] and
    a [name] entry, [get_level_name] returns that entry whatever the
    version.  A level [from_file] returns for the file has that same name
    when the version is 1 or 2 (or absent); for any other version the
    level keeps the name of a new level, so the two can differ. *)
Theorem get_level_name_agrees_with_load (filename : string)
    (editable : bool) (doc : ReaderDocument) (n : string)
    (w w0 : World) (lvl : Level) (w' : World) :
  let root := get_mapping env (get_root env doc) in
  let version := get_or (get_int env root "version") 1 in
  ReaderDocument_from_file env filename = Returns doc ->
  get_string env root "name" = Some n ->
  from_file env filename editable w = (Returns lvl, w') ->
  fst (get_level_name env filename w0) = Returns n /\
  (version = 1 \/ version = 2 -> m_name lvl = n) /\
  (version <> 1 -> version <> 2 -> m_name lvl = default_name env).
Proof.
  intros root version Hopen Hname.
  unfold from_file, new_parser.
  unfold bind at 1. unfold update at 1. unfold bind.
  rewrite load_file_run. cbv zeta. rewrite Hopen. cbn [m_level events].
  destruct (load_document env editable doc _)
    as [ [ [] | e ] w1 ] eqn:Hload; [ | discriminate ].
  unfold read. intros [= <- <-].
  destruct (string_dec (get_name env (get_root env doc)) "supertux-level")
    as [ Htag | Htag ].
  2:{ rewrite (load_document_foreign_run editable doc _ Htag) in Hload.
      discriminate. }
  split; [ | split ].
  - unfold get_level_name. run_statements.
    rewrite Hopen, (tag_test_passes doc Htag). fold root.
    rewrite Hname. reflexivity.
  - intros [ Hv1 | Hv2 ].
    + rewrite (load_document_legacy_run editable doc _ Htag Hv1) in Hload.
      fold root in Hload. rewrite Hname in Hload. cbn [m_level] in Hload.
      destruct (SectorParser_from_reader_old_format env _ root editable);
        [ | discriminate ].
      injection Hload as <-. cbn.
      destruct (get_string env root "author"); reflexivity.
    + rewrite (load_document_current_run editable doc _ Htag Hv2) in Hload.
      fold root in Hload.
      destruct (load_sectors env editable (get_iter env root) _)
        as [ [ [] | e ] w2 ] eqn:Hloop; [ | discriminate ].
      apply load_sectors_effects in Hloop as (sectors & _ & Hlvl & _).
      cbn [m_level] in Hlvl. injection Hload as <-. cbn [m_level].
      rewrite Hlvl, add_sectors_fields. cbn [set_m_stats m_name].
      destruct (read_metadata_members root
                  (set_m_filename filename (Level_new env)))
        as (_ & -> & _).
      rewrite Hname. reflexivity.
  - intros Hv1 Hv2.
    rewrite (load_document_unsupported_run editable doc _ Htag Hv1 Hv2)
      in Hload.
    injection Hload as <-. reflexivity.
Qed.

(** ** The names the allocators form *)

Lemma to_int_not_nil (z : Z) :
  Z.to_int z <> Decimal.Pos Decimal.Nil /\
  Z.to_int z <> Decimal.Neg Decimal.Nil.
Proof.
  destruct z as [ | p | p ]; cbn; split; try discriminate;
    intros [= H]; exact (DecimalPos.Unsigned.to_uint_nonnil p H).
Qed.

(** [std::to_string] gives different numbers different texts. *)
Lemma to_string_inj (n m : Z) : to_string n = to_string m -> n = m.
Proof.
  unfold to_string. intros Heq.
  apply DecimalZ.to_int_inj.
  destruct (to_int_not_nil n) as [Hn Hn'], (to_int_not_nil m) as [Hm Hm'].
  pose proof (NilZero.isi (Z.to_int n) Hn Hn') as Hread.
  rewrite Heq, (NilZero.isi (Z.to_int m) Hm Hm') in Hread.
  now injection Hread.
Qed.

Lemma to_string_not_empty (n : Z) : to_string n <> "".
Proof.
  intros Hempty. unfold to_string in Hempty.
  destruct (to_int_not_nil n) as [Hn Hn'].
  pose proof (NilZero.isi (Z.to_int n) Hn Hn') as Hread.
  rewrite Hempty in Hread. discriminate Hread.
Qed.

Lemma append_cancel_l (prefix s t : string) :
  prefix ++ s = prefix ++ t -> s = t.
Proof.
  induction prefix as [ | c prefix IH ]; cbn; [ trivial | ].
  intros [= H]. exact (IH H).
Qed.

Lemma length_append (s t : string) :
  String.length (s ++ t) = (String.length s + String.length t)%nat.
Proof. induction s as [ | c s IH ]; cbn; [ reflexivity | now rewrite IH ]. Qed.

Lemma append_cancel_r (suffix s t : string) :
  s ++ suffix = t ++ suffix -> s = t.
Proof.
  revert t. induction s as [ | c s IH ]; intros [ | d t ] Heq.
  - reflexivity.
  - apply (f_equal String.length) in Heq.
    cbn in Heq. rewrite length_append in Heq. lia.
  - apply (f_equal String.length) in Heq.
    cbn in Heq. rewrite length_append in Heq. lia.
  - cbn in Heq. injection Heq as -> Heq. now rewrite (IH t Heq).
Qed.

(** X11.  Different values of the counter name different files: the paths
    the two loops probe and the file names the levels get are injective in
    the counter, and no numbered worldmap is the plain [worldmap.stwm], as
    a path or as a file name. *)
Theorem candidate_names_distinct (basedir : string) :
  (forall n m, level_path basedir n = level_path basedir m -> n = m) /\
  (forall n m, worldmap_path basedir n = worldmap_path basedir m -> n = m) /\
  (forall n m,
     "level" ++ to_string n ++ ".stl" = "level" ++ to_string m ++ ".stl" ->
     n = m) /\
  (forall n m,
     "worldmap" ++ to_string n ++ ".stwm"
     = "worldmap" ++ to_string m ++ ".stwm" ->
     n = m) /\
  (forall n, worldmap_path basedir n <> basedir ++ "/worldmap.stwm") /\
  (forall n, "worldmap" ++ to_string n ++ ".stwm" <> "worldmap.stwm").
Proof.
  unfold level_path, worldmap_path.
  repeat split; intros n.
  - intros m H. apply append_cancel_l, append_cancel_l in H.
    now apply append_cancel_r, to_string_inj in H.
  - intros m H. apply append_cancel_l, append_cancel_l in H.
    now apply append_cancel_r, to_string_inj in H.
  - intros m H. apply append_cancel_l in H.
    now apply append_cancel_r, to_string_inj in H.
  - intros m H. apply append_cancel_l in H.
    now apply append_cancel_r, to_string_inj in H.
  - intros H. apply append_cancel_l in H.
    change "/worldmap.stwm" with ("/worldmap" ++ "" ++ ".stwm") in H.
    apply append_cancel_l, append_cancel_r in H.
    exact (to_string_not_empty n H).
  - intros H.
    change "worldmap.stwm" with ("worldmap" ++ "" ++ ".stwm") in H.
    apply append_cancel_l, append_cancel_r in H.
    exact (to_string_not_empty n H).
Qed.

End Properties.

(** * Runs on the sample installation *)

Import Sample.

Example run_legacy_document :
  fst (from_file installation "levels/legacy.stl" false start) =
  Returns
    (mkLevel "levels/legacy.stl" "Foo" "Bar" "" "" 0 "images/tiles.strf"
       [mkSector "Foo" (body legacy)] 1%nat).
Proof. reflexivity. Qed.

Example run_three_sectors :
  match fst (from_file installation "levels/three.stl" false start) with
  | Returns lvl => map sector_name (m_sectors lvl) = ["A"; "B"; "C"]
  | Throws _ => False
  end.
Proof. reflexivity. Qed.

(** A current-format level without a license loads, with one warning. *)
Example run_without_license :
  let doc := mkObject "supertux-level"
               [("version", VInt 2); ("name", VString "N");
                ("author", VString "A"); sector "main"] in
  events (snd (from_stream installation (Some doc) "fixture" false start)) =
  [open_stream "fixture"; call_from_reader [("name", VString "main")];
   log_warning
     ("[fixture] The level author " ++ dquote ++ "A" ++ dquote
      ++ " did not specify a license for this level " ++ dquote ++ "N"
      ++ dquote ++ ". You might not be allowed to share it.");
   call_stats_init].
Proof. reflexivity. Qed.

(** A sector the sector parser rejects ends the load of the whole level. *)
Example run_broken_sector :
  let doc := mkObject "supertux-level"
               [("version", VInt 2); sector "A";
                ("sector", VList [("broken", VInt 1)]); sector "C"] in
  fst (from_stream installation (Some doc) "fixture" false start) =
  Throws (runtime_error "bad sector").
Proof. reflexivity. Qed.

Example run_from_nothing :
  option_map (fun run => fst (run start)) (from_nothing installation 3 "levels")
  = Some (Returns
            (mkLevel "level3.stl" "Level 3" "SuperTux Player" ""
               "CC-BY-SA 4.0 International" 0 "images/tiles.strf"
               [mkSector "main" []] 0%nat)).
Proof. reflexivity. Qed.

(** Two iterations do not reach the third suffix. *)
Example run_from_nothing_short_of_fuel :
  option_map (fun run => fst (run start)) (from_nothing installation 2 "levels")
  = None.
Proof. reflexivity. Qed.

(** The directory [other] is empty: one iteration finds the first suffix. *)
Example run_first_probe :
  do_while_exists installation (level_path "other") 1 0 = Found 1.
Proof. reflexivity. Qed.

(** * The statements at work on the sample installation *)

(** C1 on a document with the sectors A, B and C among other entries. *)
Lemma current_format_sectors_in_order_witness :
  exists w',
    load_document installation false
      (mkDocument "levels/three.stl" three_sectors) start = (Returns tt, w') /\
    exists sectors,
      m_sectors (m_level w') = sectors /\
      Forall2 (fun node s =>
                 exists lvl,
                   SectorParser_from_reader installation lvl node false
                   = Returns s)
              [[("name", VString "A")]; [("name", VString "B")];
               [("name", VString "C")]]
              sectors.
Proof.
  destruct (current_format_sectors_in_order installation false
              (mkDocument "levels/three.stl" three_sectors) start
              eq_refl eq_refl) as [Hreturns Htotal].
  destruct Htotal as [w' Hrun].
  { intros lvl node Hin. cbn in Hin.
    destruct Hin as [ <- | [ <- | [ <- | [] ] ] ]; eexists; reflexivity. }
  exists w'. split; [ exact Hrun | ].
  destruct (Hreturns w' Hrun) as (sectors & calls & Hsectors & Hbuilt & _).
  exists sectors. split; [ exact Hsectors | exact Hbuilt ].
Defined.

(** C2 on a document without a [version] entry. *)
Lemma missing_version_takes_legacy_path_witness :
  exists w',
    load_document installation false
      (mkDocument "levels/legacy.stl" legacy) start = (Returns tt, w') /\
    m_name (m_level w') = "Foo" /\
    m_author (m_level w') = "Bar" /\
    length (m_sectors (m_level w')) = 1%nat /\
    events w'
    = [log_info "[levels/legacy.stl] level uses old format: version 1";
       call_from_reader_old_format (body legacy); call_stats_init].
Proof.
  destruct (missing_version_takes_legacy_path installation false
              (mkDocument "levels/legacy.stl" legacy) start
              eq_refl (or_introl eq_refl))
    as (lvl & Hname & Hauthor & _ & Hrun).
  cbn in Hrun. destruct Hrun as (w' & Hrun & Hname' & Hauthor' & Hsec & Hev).
  exists w'. split; [ exact Hrun | ].
  rewrite Hname', Hauthor', Hname, Hauthor, Hsec, Hev.
  repeat split.
Defined.

(** C3 on a document of version 99. *)
Lemma unsupported_version_loads_nothing_witness :
  load_document installation false
    (mkDocument "levels/future.stl" future) start =
  (Returns tt,
   mkWorld (set_m_stats 0%nat (Level_new installation))
     [log_warning
        "[levels/future.stl] level format version 99 is not supported";
      call_stats_init]).
Proof.
  apply (proj1 (unsupported_version_loads_nothing installation false
                  (mkDocument "levels/future.stl" future) 99
                  eq_refl eq_refl
                  ltac:(discriminate) ltac:(discriminate))).
Defined.

(** C4 on a document with the root tag [foo]. *)
Lemma wrong_root_tag_witness :
  get_level_name installation "levels/foo.stl" start =
  (Returns "",
   mkWorld (Level_new installation)
     [register_translation_directory "levels/foo.stl";
      open_file "levels/foo.stl"]) /\
  exists w',
    from_file installation "levels/foo.stl" true start =
    (Throws (runtime_error
               ("Problem when reading level 'levels/foo.stl': "
                ++ "file is not a supertux-level file.")),
     w').
Proof.
  destruct (wrong_root_tag installation
              (mkDocument "levels/foo.stl" foreign) ltac:(discriminate))
    as (Hname & _ & _ & Hfile).
  split.
  - apply (Hname "levels/foo.stl" start eq_refl).
  - apply (Hfile true "levels/foo.stl" start eq_refl).
Defined.

(** C5, amended, on a file that cannot be opened. *)
Lemma get_level_name_never_throws_witness :
  get_level_name installation "levels/none.stl" start =
  (Returns "",
   mkWorld (Level_new installation)
     [register_translation_directory "levels/none.stl";
      open_file "levels/none.stl";
      log_warning
        "Problem getting name of 'levels/none.stl': Couldn't open file"]).
Proof.
  apply (proj2 (get_level_name_never_throws installation "levels/none.stl"
                  start)).
Defined.

(** C5 as it is stated fails on a document with the root tag [foo] and the
    name [X]: no step of the parse fails and nothing is logged, yet the
    result is the empty string and not the [name] entry. *)
Lemma get_level_name_foreign_root_counterexample :
  exists doc,
    ReaderDocument_from_file installation "levels/foo.stl" = Returns doc /\
    get_string installation
      (get_mapping installation (get_root installation doc)) "name"
    = Some "X" /\
    get_level_name installation "levels/foo.stl" start =
    (Returns "",
     mkWorld (Level_new installation)
       [register_translation_directory "levels/foo.stl";
        open_file "levels/foo.stl"]) /\
    fst (get_level_name installation "levels/foo.stl" start) <> Returns "X".
Proof.
  exists (mkDocument "levels/foo.stl" foreign).
  repeat split. discriminate.
Qed.

(** C6 on a directory that holds [level1.stl] and [level2.stl]. *)
Lemma from_nothing_first_free_level_witness :
  exists run,
    from_nothing installation 3 "levels" = Some run /\
    yields_new_level installation run "level3.stl" "Level 3".
Proof.
  assert (Hsome : exists n, 1 <= n <= Int.max_signed /\
            PHYSFS_exists installation
              ("levels" ++ "/level" ++ to_string n ++ ".stl") = false)
    by (exists 3; split; [ unfold Int.max_signed; lia | reflexivity ]).
  destruct (from_nothing_first_free_level installation "levels" Hsome)
    as (N & HN & Hfree & Hleast & Hrun).
  assert (N = 3) as ->.
  { destruct (Z_lt_le_dec 3 N) as [ Hlt | Hle ].
    - specialize (Hleast 3 ltac:(lia)). discriminate Hleast.
    - assert (N = 1 \/ N = 2 \/ N = 3) as [ -> | [ -> | -> ] ] by lia;
        [ discriminate Hfree | discriminate Hfree | reflexivity ]. }
  apply (Hrun 3%nat (le_n 3)).
Defined.

(** C7 on a directory without [worldmap.stwm] and on one that holds it. *)
Lemma from_nothing_worldmap_filename_witness :
  (exists run,
     from_nothing_worldmap installation 0 "other" "My World" = Some run /\
     yields_new_level installation run "worldmap.stwm" "My World") /\
  (exists run,
     from_nothing_worldmap installation 1 "levels" "My World" = Some run /\
     yields_new_level installation run "worldmap1.stwm" "My World").
Proof.
  destruct (from_nothing_worldmap_filename installation "other" "My World")
    as [ Habsent _ ].
  destruct (from_nothing_worldmap_filename installation "levels" "My World")
    as [ _ Hpresent ].
  split.
  - apply (Habsent eq_refl 0%nat).
  - assert (Hsome : exists n, 1 <= n <= Int.max_signed /\
              PHYSFS_exists installation
                ("levels" ++ "/worldmap" ++ to_string n ++ ".stwm") = false)
      by (exists 1; split; [ unfold Int.max_signed; lia | reflexivity ]).
    destruct (Hpresent eq_refl Hsome) as (N & HN & Hfree & Hleast & Hrun).
    assert (N = 1) as ->.
    { destruct (Z_lt_le_dec 1 N) as [ Hlt | Hle ]; [ | lia ].
      specialize (Hleast 1 ltac:(lia)). discriminate Hleast. }
    apply (Hrun 1%nat (le_n 1)).
Defined.

(** C8 on a file that cannot be opened. *)
Lemma load_file_names_the_file_witness :
  exists w',
    load_file installation false "levels/none.stl" start =
    (Throws (runtime_error
               ("Problem when reading level 'levels/none.stl': "
                ++ "Couldn't open file")),
     w') /\
    m_filename (m_level w') = "levels/none.stl" /\
    stores (events w') = ["levels/none.stl"].
Proof.
  destruct (load_file_names_the_file installation false "levels/none.stl"
              start)
    as (outcome & w' & rest & Hrun & Hev & Hrest & Hname & Hreader & _).
  exists w'. rewrite Hrun, (Hreader _ eq_refl), Hev.
  repeat split; [ exact Hname | ].
  cbn [events start app]. unfold stores in *. cbn [flat_map app].
  rewrite Hrest. reflexivity.
Defined.

(** C9, amended, on a file with three sectors. *)
Lemma filename_assigned_once_unless_from_stream_witness :
  exists lvl w',
    from_file installation "levels/three.stl" false start = (Returns lvl, w') /\
    stores (events w') = ["levels/three.stl"] /\
    m_filename lvl = "levels/three.stl".
Proof.
  destruct (from_file installation "levels/three.stl" false start)
    as [ [ lvl | e ] w' ] eqn:Hrun; [ | vm_compute in Hrun; discriminate ].
  exists lvl, w'. split; [ reflexivity | ].
  destruct (proj1 (filename_assigned_once_unless_from_stream installation)
              "levels/three.stl" false start lvl w' Hrun)
    as (es & Hev & Hstores & Hname).
  rewrite Hev. split; [ exact Hstores | exact Hname ].
Defined.

(** C9 as it is stated fails for [from_stream]: the call returns a level
    and has stored nothing into [m_filename], which stays empty. *)
Lemma from_stream_filename_counterexample :
  exists lvl w',
    from_stream installation (Some three_sectors) "fixture" false start
    = (Returns lvl, w') /\
    events start = [] /\
    stores (events w') = [] /\
    length (stores (events w')) <> 1%nat /\
    m_filename lvl = "".
Proof.
  eexists _, _. split; [ vm_compute; reflexivity | ].
  repeat split. discriminate.
Qed.

(** C10 on the directory [levels]. *)
Lemma probing_loops_terminate_witness :
  (exists fuel0 : nat, forall fuel : nat, (fuel0 <= fuel)%nat ->
     from_nothing installation fuel "levels" <> None) /\
  (exists fuel0 : nat, forall fuel : nat, (fuel0 <= fuel)%nat ->
     from_nothing_worldmap installation fuel "levels" "My World" <> None).
Proof.
  destruct (probing_loops_terminate installation "levels" "My World")
    as (_ & Hlevel & Hworldmap & _).
  split.
  - apply Hlevel. exists 3. split; [ unfold Int.max_signed; lia | ].
    reflexivity.
  - apply Hworldmap. right. exists 1.
    split; [ unfold Int.max_signed; lia | ]. reflexivity.
Defined.

(** * The further statements at work on the sample installation *)

(** X1 on a level without license, by the author A and with the name N. *)
Lemma current_format_events_witness :
  exists w',
    load_document installation false
      (mkDocument "fixture" unlicensed) start
    = (Returns tt, w') /\
    events w'
    = [call_from_reader [("name", VString "main")];
       license_warning "fixture" "A" "N"; call_stats_init].
Proof.
  destruct (load_document installation false
              (mkDocument "fixture" unlicensed) start)
    as [ [ [] | e ] w' ] eqn:Hrun; [ | vm_compute in Hrun; discriminate ].
  exists w'. split; [ reflexivity | ].
  exact (current_format_events installation false
           (mkDocument "fixture" unlicensed) start w' eq_refl eq_refl Hrun).
Defined.

(** X2 on the level with three sectors, which has a name and a license
    and no author. *)
Lemma current_format_metadata_witness :
  exists w',
    load_document installation false
      (mkDocument "levels/three.stl" three_sectors) start = (Returns tt, w') /\
    m_name (m_level w') = "Three" /\
    m_license (m_level w') = "CC0" /\
    m_author (m_level w') = "SuperTux Player" /\
    m_filename (m_level w') = "".
Proof.
  destruct (load_document installation false
              (mkDocument "levels/three.stl" three_sectors) start)
    as [ [ [] | e ] w' ] eqn:Hrun; [ | vm_compute in Hrun; discriminate ].
  exists w'. split; [ reflexivity | ].
  destruct (current_format_metadata installation false
              (mkDocument "levels/three.stl" three_sectors) start w'
              eq_refl eq_refl Hrun)
    as (_ & Hname & Hauthor & _ & Hlicense & _ & Hfile).
  rewrite Hname, Hauthor, Hlicense, Hfile. repeat split.
Defined.

(** X3 on a version 2 document with a license and nothing else. *)
Lemma current_format_without_sectors_witness :
  exists w',
    load_document installation false
      (mkDocument "fixture" sectorless) start
    = (Returns tt, w') /\
    m_sectors (m_level w') = [].
Proof.
  destruct (current_format_without_sectors installation false
              (mkDocument "fixture" sectorless)
              start eq_refl eq_refl eq_refl)
    as (w' & l & Hrun & Hlvl & Hsectors & _).
  exists w'. split; [ exact Hrun | ].
  rewrite Hlvl. exact Hsectors.
Defined.

(** X4 on a document of version 99, which returns, and on one with a
    sector the sector parser rejects, which throws. *)
Lemma statistics_initialised_last_witness :
  (exists w' l es,
     load_document installation false
       (mkDocument "levels/future.stl" future) start = (Returns tt, w') /\
     m_level w' = set_m_stats (Statistics_init installation l) l /\
     events w' = (es ++ [call_stats_init])%list) /\
  (exists e w',
     load_document installation false
       (mkDocument "fixture" broken_sector) start
     = (Throws e, w') /\
     m_stats (m_level w') = 0%nat).
Proof.
  split.
  - destruct (load_document installation false
                (mkDocument "levels/future.stl" future) start)
      as [ [ [] | e ] w' ] eqn:Hrun; [ | vm_compute in Hrun; discriminate ].
    destruct (statistics_initialised_last installation false _ start _ w'
                Hrun) as (l & es & Hlvl & Hev & _).
    exists w', l, es. repeat split; assumption.
  - destruct (load_document installation false
                (mkDocument "fixture" broken_sector) start)
      as [ [ [] | e ] w' ] eqn:Hrun; [ vm_compute in Hrun; discriminate | ].
    destruct (statistics_initialised_last installation false _ start _ w'
                Hrun) as (Hstats & _).
    exists e, w'. split; [ reflexivity | exact Hstats ].
Defined.

(** X5 on a stream whose second sector the sector parser rejects. *)
Lemma loader_exceptions_origin_witness :
  exists e w',
    from_stream installation
      (Some broken_sector)
      "fixture" false start = (Throws e, w') /\
    sector_parser_throws installation false e.
Proof.
  destruct (from_stream installation
              (Some broken_sector)
              "fixture" false start)
    as [ [ lvl | e ] w' ] eqn:Hrun; [ vm_compute in Hrun; discriminate | ].
  exists e, w'. split; [ reflexivity | ].
  destruct (proj2 (loader_exceptions_origin installation false)
              _ _ _ _ _ Hrun) as [ Hreader | [ Htag | Hsector ] ].
  - discriminate Hreader.
  - rewrite Htag in Hrun. vm_compute in Hrun. discriminate Hrun.
  - exact Hsector.
Defined.

(** X6 on a version 1 document that has a tileset and a license entry. *)
Lemma legacy_load_leaves_rest_witness :
  exists outcome w',
    load_document installation false
      (mkDocument "fixture" legacy_with_extras) start = (outcome, w') /\
    m_tileset (m_level w') = "images/tiles.strf" /\
    m_license (m_level w') = "".
Proof.
  destruct (load_document installation false
              (mkDocument "fixture" legacy_with_extras) start)
    as [ outcome w' ] eqn:Hrun.
  exists outcome, w'. split; [ reflexivity | ].
  destruct (legacy_load_leaves_rest installation false
              (mkDocument "fixture" legacy_with_extras) start outcome w'
              eq_refl (or_introl eq_refl) Hrun)
    as (_ & Htileset & _ & Hlicense & _).
  rewrite Htileset, Hlicense. split; reflexivity.
Defined.

(** X7 on a level that holds a sector before the load. *)
Lemma load_only_appends_sectors_witness :
  exists outcome w' sectors,
    load_document installation false
      (mkDocument "levels/three.stl" three_sectors)
      (mkWorld (add_sector (mkSector "old" []) (Level_new installation)) [])
    = (outcome, w') /\
    m_sectors (m_level w') = mkSector "old" [] :: sectors.
Proof.
  destruct (load_document installation false
              (mkDocument "levels/three.stl" three_sectors)
              (mkWorld (add_sector (mkSector "old" [])
                          (Level_new installation)) []))
    as [ outcome w' ] eqn:Hrun.
  destruct (load_only_appends_sectors installation false _ _ outcome w' Hrun)
    as (sectors & Hsectors).
  exists outcome, w', sectors. split; [ reflexivity | exact Hsectors ].
Defined.

(** X8 on the directory [levels], which holds the first two levels. *)
Lemma allocators_pick_free_file_witness :
  exists run N,
    from_nothing installation 3 "levels" = Some run /\
    1 <= N /\
    PHYSFS_exists installation ("levels" ++ "/level" ++ to_string N ++ ".stl")
    = false /\
    PHYSFS_exists installation ("levels" ++ "/level" ++ to_string 1 ++ ".stl")
    = true /\
    yields_new_level installation run
      ("level" ++ to_string N ++ ".stl") ("Level " ++ to_string N).
Proof.
  destruct (from_nothing installation 3 "levels") as [ run | ] eqn:Hsome;
    [ | vm_compute in Hsome; discriminate ].
  destruct (proj1 (allocators_pick_free_file installation) 3%nat "levels"
              run Hsome) as (N & HN & Hfree & Hbelow & Hlevel).
  exists run, N. repeat split; try assumption; try apply HN.
Defined.

(** X9 on a new worldmap in the directory [levels]. *)
Lemma allocators_seed_metadata_witness :
  exists lvl w',
    (new_parser installation ;;
     create installation "worldmap1.stwm" "My World" true ;;
     read (fun l => l))%parser start = (Returns lvl, w') /\
    m_tileset lvl = "images/worldmap.strf" /\
    m_license lvl = "CC-BY-SA 4.0 International" /\
    m_stats lvl = 0%nat.
Proof.
  destruct ((new_parser installation ;;
             create installation "worldmap1.stwm" "My World" true ;;
             read (fun l => l))%parser start)
    as [ [ lvl | e ] w' ] eqn:Hrun; [ | vm_compute in Hrun; discriminate ].
  exists lvl, w'. split; [ reflexivity | ].
  destruct (proj2 (allocators_seed_metadata installation)
              1%nat "levels" "My World" _ start lvl w' eq_refl Hrun)
    as (Hlicense & Htileset & _ & _ & _ & Hstats & _).
  repeat split; assumption.
Defined.

(** X10 on the file with three sectors. *)
Lemma get_level_name_agrees_with_load_witness :
  exists lvl w',
    from_file installation "levels/three.stl" false start = (Returns lvl, w') /\
    m_name lvl = "Three" /\
    fst (get_level_name installation "levels/three.stl" start)
    = Returns "Three".
Proof.
  destruct (from_file installation "levels/three.stl" false start)
    as [ [ lvl | e ] w' ] eqn:Hrun; [ | vm_compute in Hrun; discriminate ].
  exists lvl, w'. split; [ reflexivity | ].
  destruct (get_level_name_agrees_with_load installation "levels/three.stl"
              false (mkDocument "levels/three.stl" three_sectors) "Three"
              start start lvl w' eq_refl eq_refl Hrun)
    as (Hprobe & Hsame & _).
  split; [ apply Hsame; right; reflexivity | exact Hprobe ].
Defined.

(** X11 on the first two suffixes. *)
Lemma candidate_names_distinct_witness :
  level_path "levels" 1 <> level_path "levels" 2 /\
  worldmap_path "levels" 1 <> "levels/worldmap.stwm".
Proof.
  destruct (candidate_names_distinct "levels")
    as (Hlevel & _ & _ & _ & Hplain & _).
  split.
  - intros Heq. apply Hlevel in Heq. discriminate Heq.
  - apply Hplain.
Defined.

(** C10 as it is stated fails where every candidate exists: after as many
    iterations as there are suffixes from 1 to the largest [int], the loop
    is not running on but increments the largest [int]. *)
Lemma loop_overflows_counterexample :
  (forall n, 1 <= n <= Int.max_signed ->
     PHYSFS_exists crowded (level_path "levels" n) = true) /\
  do_while_exists crowded (level_path "levels")
    (S (Z.to_nat Int.max_signed)) 0 = Overflow /\
  do_while_exists crowded (level_path "levels")
    (S (Z.to_nat Int.max_signed)) 0 <> Unfinished.
Proof.
  assert (Hall : forall n, 1 <= n <= Int.max_signed ->
            PHYSFS_exists crowded (level_path "levels" n) = true)
    by reflexivity.
  assert (Hends : do_while_exists crowded (level_path "levels")
                    (S (Z.to_nat Int.max_signed)) 0 = Overflow).
  { rewrite (do_while_exists_exhausts crowded (level_path "levels") Hall
               (S (Z.to_nat Int.max_signed)) 0)
      by (unfold Int.max_signed; lia).
    rewrite Z.sub_0_r.
    now rewrite (proj2 (Nat.leb_gt _ _)
                   (Nat.lt_succ_diag_r (Z.to_nat Int.max_signed))). }
  split; [ exact Hall | ]. split; [ exact Hends | ].
  rewrite Hends. discriminate.
Qed.
